(** * Binaural-beat service: waveform synthesis, session registry and
      streaming loop of [main.py], embedded and verified.

    Numbers.  Python's [float] is modelled by the real numbers [R]: every
    arithmetic operation is exact, so rounding, overflow and NaN are outside
    the model.  [np.sin] and [np.pi] are [sin] and [PI] of the standard
    library's reals, [np.floor] is [Int_part], [np.abs] is [Rabs].  One
    binary64 computation on which a sample count depends, the buffer duration
    multiplied back by the sample rate, is additionally evaluated on
    primitive floats (Module [Binary64]).

    Objects.  [SessionData] objects are mutable and shared between the
    registry and the streaming coroutine, so the registry maps identifiers to
    references into a heap of session objects.

    Effects.  Handlers run in a small monad over a [World]: the session
    manager, the trace of transport events, and an oracle holding the
    successive readings of the wall clock and the outcome of every [await]
    (what other coroutines did to the session manager meanwhile, and
    whether the awaited call raised).

    Logging calls have no effect on any modelled state and are left out. *)

From Stdlib Require Import Reals Lra Lia ZArith List String Floats.
From stdpp Require Import gmap strings pretty.

Import ListNotations.

Local Open Scope Z_scope.
Local Open Scope string_scope.

(** ** Constants *)

Definition SAMPLE_RATE : Z := 44100.
Definition BUFFER_SIZE : Z := 1024.

(** ** Exceptions *)

(** The exception classes the modelled code raises or catches.  All but
    [CancelledError] derive from Python's [Exception]. *)
Inductive exn : Type :=
  | HTTPException (status_code : Z) (detail : string)
  | ValueError (msg : string)
  | RuntimeError (msg : string)
  | WebSocketDisconnect
  | CancelledError.

(** [isinstance(e, Exception)] *)
Definition is_Exception (e : exn) : bool :=
  match e with
  | CancelledError => false
  | _ => true
  end.

(** [isinstance(e, WebSocketDisconnect)] *)
Definition is_WebSocketDisconnect (e : exn) : bool :=
  match e with
  | WebSocketDisconnect => true
  | _ => false
  end.

Inductive result (A : Type) : Type :=
  | Ok (a : A)
  | Err (e : exn).
Arguments Ok {A} a.
Arguments Err {A} e.

(** ** Data models *)

Record BinauralConfig : Type := mkConfig {
  carrier_freq : R;
  beat_freq : R;
  waveform : string;
  duration : Z;
  volume : R
}.

(** The [Field] constraints pydantic enforces when a [BinauralConfig] is
    built from a request body. *)
Definition supported_waveform (w : string) : Prop :=
  w = "sine" \/ w = "square" \/ w = "sawtooth" \/ w = "triangle".

Definition valid_config (c : BinauralConfig) : Prop :=
  (40 <= carrier_freq c <= 1000)%R /\
  (/ 2 <= beat_freq c <= 40)%R /\
  supported_waveform (waveform c) /\
  (1 <= duration c <= 3600)%Z /\
  (0 <= volume c <= 1)%R.

Record SessionData : Type := mkSession {
  session_id : string;
  config : BinauralConfig;
  start_time : R;
  is_active : bool
}.

Record AudioBuffer : Type := mkBuffer {
  left_channel : list R;
  right_channel : list R;
  timestamp : R
}.

(** The two dictionaries of the [SessionManager] object, with the heap of
    [SessionData] objects the first one refers to.  A websocket object is
    identified by a number. *)
Record Manager : Type := mkManager {
  heap : gmap positive SessionData;
  sessions : gmap string positive;
  active_connections : gmap string nat
}.

(** JSON bodies: what [send_json] sends, and what the REST routes return. *)
Inductive json_msg : Type :=
  | AudioData (left_channel right_channel : list R) (timestamp : R)
              (sample_rate buffer_size : Z)
  | StatusMsg (status message : string).

Inductive response : Type :=
  | GenerateResponse (session_id : string) (config : BinauralConfig)
                     (status estimated_quality : string)
  | SessionInfo (session_id : string) (config : BinauralConfig)
                (start_time duration_played : R) (is_active : bool)
                (progress : R)
  | EndResponse (status session_id : string).

(** What a handler does to the outside, in order. *)
Inductive event : Type :=
  | EvAccept (ws : nat)
  | EvSend (ws : nat) (msg : json_msg)
  | EvClose (ws : nat) (code : Z) (reason : string)
  | EvSleep (seconds : R).

(** The functions of the Python runtime and of its libraries whose values
    the code uses without fixing them: the per-process string hash, the
    [str] of a pydantic model and the [str] of an exception. *)
Class PyRuntime : Type := {
  py_hash : string -> Z;
  config_str : BinauralConfig -> string;
  exn_str : exn -> string
}.

(** Python's [int(x)] on a float: truncation towards zero. *)
Definition py_int (x : R) : Z :=
  if Rle_dec 0 x then Int_part x else (- Int_part (- x))%Z.

(** ** Session management *)

Module SessionManager.
Section WithRuntime.
Context `{PyRuntime}.

Definition init : Manager := mkManager ∅ ∅ ∅.

(** [create_session]; [now] is the reading of [time.time()] and [now_dt]
    that of [datetime.now()].  The new [SessionData] object is allocated
    at a fresh reference and the dictionary entry is (over)written. *)
Definition create_session (config : BinauralConfig) (now now_dt : R)
    (m : Manager) : string * Manager :=
  let session_id :=
    "session_" ++ pretty (py_int now) ++ "_"
               ++ pretty (py_hash (config_str config) mod 10000) in
  let session := mkSession session_id config now_dt true in
  let l := fresh (dom (heap m)) in
  (session_id,
   mkManager (<[l := session]> (heap m))
             (<[session_id := l]> (sessions m))
             (active_connections m)).

(** [get_session]: the object stored under the identifier, by reference. *)
Definition get_session (session_id : string) (m : Manager) : option positive :=
  sessions m !! session_id.

Definition deactivate (s : SessionData) : SessionData :=
  mkSession (session_id s) (config s) (start_time s) false.

Definition end_session (session_id : string) (m : Manager) : Manager :=
  match sessions m !! session_id with
  | Some l =>
    mkManager (alter deactivate l (heap m))
              (sessions m)
              (match active_connections m !! session_id with
               | Some _ => delete session_id (active_connections m)
               | None => active_connections m
               end)
  | None => m
  end.

(** [session_manager.active_connections[session_id] = websocket] *)
Definition connect (session_id : string) (ws : nat) (m : Manager) : Manager :=
  mkManager (heap m) (sessions m) (<[session_id := ws]> (active_connections m)).

End WithRuntime.
End SessionManager.

(** ** Coroutines, the clock and the transport *)

(** One step another coroutine takes on the session manager while this one
    is suspended: these are all the places of [main.py] that write to it. *)
Inductive env_op : Type :=
  | OpCreate (config : BinauralConfig) (now now_dt : R)
  | OpEnd (session_id : string)
  | OpConnect (session_id : string) (ws : nat).

(** What happens during one [await]: the other coroutines' steps, then
    either the awaited call returns or it raises. *)
Record await_outcome : Type := mkAwait {
  others : list env_op;
  raised : option exn
}.

Record World : Type := mkWorld {
  manager : Manager;
  trace : list event;
  clock : list R;
  awaits : list await_outcome
}.

Inductive outcome (A : Type) : Type :=
  | Ret (a : A)
  | Raise (e : exn)
  | Stuck.
Arguments Ret {A} a.
Arguments Raise {A} e.
Arguments Stuck {A}.

Definition M (A : Type) : Type := World -> outcome A * World.

Definition ret {A} (a : A) : M A := fun w => (Ret a, w).

Definition bind {A B} (c : M A) (k : A -> M B) : M B :=
  fun w =>
    match c w with
    | (Ret a, w') => k a w'
    | (Raise e, w') => (Raise e, w')
    | (Stuck, w') => (Stuck, w')
    end.

Notation "'let*' x ':=' c1 'in' c2" := (bind c1 (fun x => c2))
  (at level 10, x name, c1 at level 100, c2 at level 200).
Notation "'do' c1 'then' c2" := (bind c1 (fun _ => c2))
  (at level 10, c1 at level 100, c2 at level 200).

Definition raise {A} (e : exn) : M A := fun w => (Raise e, w).

Definition get_manager : M Manager := fun w => (Ret (manager w), w).

Definition modify_manager (f : Manager -> Manager) : M unit :=
  fun w => (Ret tt, mkWorld (f (manager w)) (trace w) (clock w) (awaits w)).

(** [time.time()] / [datetime.now()]: the next reading of the clock. *)
Definition time_time : M R :=
  fun w =>
    match clock w with
    | [] => (Stuck, w)
    | t :: rest => (Ret t, mkWorld (manager w) (trace w) rest (awaits w))
    end.

(** [try: body except ... : handler] where [handler] re-raises what no
    clause catches; [try: body finally: fin]. *)
Definition try_except {A} (body : M A) (handler : exn -> M A) : M A :=
  fun w =>
    match body w with
    | (Raise e, w') => handler e w'
    | r => r
    end.

Definition try_finally {A} (body : M A) (fin : M unit) : M A :=
  fun w =>
    match body w with
    | (Stuck, w') => (Stuck, w')
    | (r, w') =>
      match fin w' with
      | (Ret _, w'') => (r, w'')
      | (Raise e, w'') => (Raise e, w'')
      | (Stuck, w'') => (Stuck, w'')
      end
    end.

Section Service.
Context `{PyRuntime}.

Definition apply_op (op : env_op) (m : Manager) : Manager :=
  match op with
  | OpCreate config now now_dt =>
    snd (SessionManager.create_session config now now_dt m)
  | OpEnd session_id => SessionManager.end_session session_id m
  | OpConnect session_id ws => SessionManager.connect session_id ws m
  end.

Definition apply_env (ops : list env_op) (m : Manager) : Manager :=
  fold_left (fun m op => apply_op op m) ops m.

(** [await call]: the other coroutines run, then the call either raises
    or has the effect [ev]. *)
Definition await (ev : event) : M unit :=
  fun w =>
    match awaits w with
    | [] => (Stuck, w)
    | a :: rest =>
      let m := apply_env (others a) (manager w) in
      match raised a with
      | Some e => (Raise e, mkWorld m (trace w) (clock w) rest)
      | None => (Ret tt, mkWorld m (trace w ++ [ev]) (clock w) rest)
      end
    end.

End Service.

(** ** Audio generation engine *)

Module BinauralGenerator.

Local Open Scope R_scope.

Definition sample_rate : Z := SAMPLE_RATE.
Definition buffer_size : Z := BUFFER_SIZE.

(** [np.floor], [np.sign], elementwise. *)
Definition np_floor (x : R) : R := IZR (Int_part x).

Definition np_sign (x : R) : R :=
  if Rlt_dec x 0 then -1 else if Rlt_dec 0 x then 1 else 0.

(** [np.linspace(start, stop, num, False)]: [num] points
    [start + i * step] with [step = (stop - start) / num]; a negative
    [num] raises. *)
Definition linspace (start stop : R) (num : Z) : result (list R) :=
  if (num <? 0)%Z then
    Err (ValueError "Number of samples must be non-negative")
  else
    let step := (stop - start) / IZR num in
    Ok (map (fun i : nat => INR i * step + start) (seq 0 (Z.to_nat num))).

Definition generate_waveform (frequency duration : R) (waveform : string)
  : result (list R) :=
  let samples := py_int (duration * IZR sample_rate) in
  match linspace 0 duration samples with
  | Err e => Err e
  | Ok t =>
    if String.eqb waveform "sine" then
      Ok (map (fun t => sin (2 * PI * frequency * t)) t)
    else if String.eqb waveform "square" then
      Ok (map (fun t => np_sign (sin (2 * PI * frequency * t))) t)
    else if String.eqb waveform "sawtooth" then
      Ok (map (fun t => 2 * (t * frequency - np_floor (/ 2 + t * frequency))) t)
    else if String.eqb waveform "triangle" then
      Ok (map (fun t =>
                 2 * Rabs (2 * (t * frequency - np_floor (/ 2 + t * frequency))) - 1) t)
    else
      Err (ValueError ("Unsupported waveform: " ++ waveform))
  end.

(** A numpy call inside a coroutine: returns or raises. *)
Definition lift {A} (r : result A) : M A :=
  match r with
  | Ok a => ret a
  | Err e => raise e
  end.

(** [generate_binaural_beats].  Whatever is raised inside the [try] and
    is an [Exception] is replaced by a 500.  The Nyquist test only logs. *)
Definition generate_binaural_beats (config : BinauralConfig) : M AudioBuffer :=
  try_except
    (let left_freq := carrier_freq config in
     let right_freq := carrier_freq config + beat_freq config in
     let buffer_duration := IZR buffer_size / IZR sample_rate in
     let* l := lift (generate_waveform left_freq buffer_duration (waveform config)) in
     let left_channel := map (fun x => x * volume config) l in
     let* r := lift (generate_waveform right_freq buffer_duration (waveform config)) in
     let right_channel := map (fun x => x * volume config) r in
     let* now := time_time in
     ret (mkBuffer left_channel right_channel now))
    (fun e =>
       if is_Exception e then raise (HTTPException 500 "Audio generation failed")
       else raise e).

End BinauralGenerator.

(** ** Routes *)

Section Routes.
Context `{PyRuntime}.

Local Open Scope R_scope.

(** [session_manager.create_session(config)] called from a coroutine:
    the two clock readings, then the update. *)
Definition create_session (config : BinauralConfig) : M string :=
  let* now := time_time in
  let* now_dt := time_time in
  let* m := get_manager in
  let '(session_id, m') := SessionManager.create_session config now now_dt m in
  do modify_manager (fun _ => m') then
  ret session_id.

(** [POST /beats/generate], after [verify_token] has accepted the caller. *)
Definition generate_beats (config : BinauralConfig) : M response :=
  try_except
    (do (if Rgt_dec (carrier_freq config + beat_freq config) 1000
         then raise (HTTPException 400 "Combined frequency exceeds maximum limit")
         else ret tt) then
     let* test_buffer := BinauralGenerator.generate_binaural_beats config in
     let* session_id := create_session config in
     ret (GenerateResponse session_id config "ready"
            (if Rlt_dec (carrier_freq config) 500 then "high" else "medium")))
    (fun e =>
       if is_Exception e then raise (HTTPException 500 (exn_str e))
       else raise e).

(** [GET /sessions/{session_id}], after [verify_token]. *)
Definition get_session_info (session_id : string) : M response :=
  let* m := get_manager in
  match SessionManager.get_session session_id m with
  | None => raise (HTTPException 404 "Session not found")
  | Some l =>
    let* now := time_time in
    match heap m !! l with
    | None => fun w => (Stuck, w)
    | Some session =>
      let duration_played := now - start_time session in
      ret (SessionInfo session_id (config session) (start_time session)
             duration_played (is_active session)
             (if (duration (config session) =? 0)%Z then 0
              else Rmin (duration_played / IZR (duration (config session))) 1))
    end
  end.

(** [DELETE /sessions/{session_id}], after [verify_token]. *)
Definition end_session (session_id : string) : M response :=
  do modify_manager (SessionManager.end_session session_id) then
  ret (EndResponse "session_ended" session_id).

Definition audio_data (b : AudioBuffer) : json_msg :=
  AudioData (left_channel b) (right_channel b) (timestamp b)
            SAMPLE_RATE BUFFER_SIZE.

(** The [while] loop of the stream; [l] is the session object the
    coroutine holds, [fuel] bounds the number of passes. *)
Fixpoint stream_loop (fuel : nat) (ws : nat) (l : positive) (start_time : R)
  : M unit :=
  match fuel with
  | O => fun w => (Stuck, w)
  | S fuel' =>
    let* m := get_manager in
    match heap m !! l with
    | None => fun w => (Stuck, w)
    | Some session =>
      if is_active session then
        let* now := time_time in
        if Rlt_dec (now - start_time) (IZR (duration (config session))) then
          let* audio_buffer :=
            BinauralGenerator.generate_binaural_beats (config session) in
          do await (EvSend ws (audio_data audio_buffer)) then
          do await (EvSleep (IZR BUFFER_SIZE / IZR SAMPLE_RATE)) then
          stream_loop fuel' ws l start_time
        else ret tt
      else ret tt
    end
  end.

(** The body of the [try] statement. *)
Definition stream_body (fuel : nat) (ws : nat) (l : positive) : M unit :=
  let* start_time := time_time in
  do stream_loop fuel ws l start_time then
  await (EvSend ws (StatusMsg "completed" "Session finished")).

(** Its [except] clauses, in order. *)
Definition stream_except (ws : nat) (e : exn) : M unit :=
  if is_WebSocketDisconnect e then ret tt
  else if is_Exception e then
    await (EvSend ws (StatusMsg "error" (exn_str e)))
  else raise e.

(** [websocket_audio_stream] *)
Definition websocket_audio_stream (fuel : nat) (ws : nat)
    (session_id : string) : M unit :=
  do await (EvAccept ws) then
  let* m := get_manager in
  match SessionManager.get_session session_id m with
  | None => await (EvClose ws 4004 "Session not found")
  | Some l =>
    do modify_manager (SessionManager.connect session_id ws) then
    try_finally
      (try_except (stream_body fuel ws l) (stream_except ws))
      (modify_manager (SessionManager.end_session session_id))
  end.

End Routes.

(** ** The per-sample formulas, as specified *)

(** The per-kind formula of the specification, at phase [2 * PI * f * t]. *)
Definition spec_sample (w : string) (f t : R) : R :=
  (if String.eqb w "sine" then sin (2 * PI * f * t)
   else if String.eqb w "square" then BinauralGenerator.np_sign (sin (2 * PI * f * t))
   else if String.eqb w "sawtooth" then
     2 * (t * f - IZR (Int_part (/ 2 + t * f)))
   else if String.eqb w "triangle" then
     2 * Rabs (2 * (t * f - IZR (Int_part (/ 2 + t * f)))) - 1
   else 0)%R.

(** The sampling instants [np.linspace(0, d, n, False)] produces. *)
Definition sample_times (d : R) (n : Z) : list R :=
  map (fun i : nat => INR i * (d / IZR n))%R (seq 0 (Z.to_nat n)).

(** ** Binary64 *)

(** The sample count of a streaming buffer is [int(1024 / 44100 * 44100)],
    computed on binary64 floats; here it is evaluated on them. *)
Module Binary64.

(** [int(x)] on a binary64 float; [None] where Python raises (infinities
    and NaN). *)
Definition float_int (x : float) : option Z :=
  match Prim2SF x with
  | S754_zero _ => Some 0%Z
  | S754_finite s m e =>
    let mag := if (0 <=? e)%Z then (Z.pos m * 2 ^ e)%Z
               else (Z.pos m / 2 ^ (- e))%Z in
    Some (if s then (- mag)%Z else mag)
  | S754_infinity _ => None
  | S754_nan => None
  end.

Definition buffer_duration : float := (1024 / 44100)%float.

Definition buffer_samples : option Z := float_int (buffer_duration * 44100)%float.

End Binary64.

(** ** Runs of the streaming loop, as specified *)

Section Runs.
Context `{PyRuntime}.

Local Open Scope R_scope.

(** The loop of transition 2, from one world to the world at its exit:
    it stops without a message when the session object is inactive or
    when the elapsed time has reached the duration; otherwise it
    synthesizes one buffer stamped with the current time, delivers it,
    suspends for [1024 / 44100] seconds and goes on. *)
Inductive loop_spec (ws : nat) (l : positive) (start : R)
  : World -> World -> Prop :=
  | loop_inactive (w : World) (s : SessionData) :
      heap (manager w) !! l = Some s ->
      is_active s = false ->
      loop_spec ws l start w w
  | loop_expired (w : World) (s : SessionData) (now : R) (rest : list R) :
      heap (manager w) !! l = Some s ->
      is_active s = true ->
      clock w = now :: rest ->
      ~ now - start < IZR (duration (config s)) ->
      loop_spec ws l start w (mkWorld (manager w) (trace w) rest (awaits w))
  | loop_tick (w w' : World) (s : SessionData) (now stamp : R) (rest : list R)
      (a1 a2 : await_outcome) (aw : list await_outcome) (lft rgt : list R) :
      heap (manager w) !! l = Some s ->
      is_active s = true ->
      clock w = now :: stamp :: rest ->
      now - start < IZR (duration (config s)) ->
      BinauralGenerator.generate_waveform (carrier_freq (config s))
        (IZR BUFFER_SIZE / IZR SAMPLE_RATE) (waveform (config s)) = Ok lft ->
      BinauralGenerator.generate_waveform
        (carrier_freq (config s) + beat_freq (config s))
        (IZR BUFFER_SIZE / IZR SAMPLE_RATE) (waveform (config s)) = Ok rgt ->
      awaits w = a1 :: a2 :: aw ->
      raised a1 = None ->
      raised a2 = None ->
      loop_spec ws l start
        (mkWorld
           (apply_env (others a2) (apply_env (others a1) (manager w)))
           ((trace w
             ++ [EvSend ws
                   (AudioData (map (fun x => x * volume (config s)) lft)
                              (map (fun x => x * volume (config s)) rgt)
                              stamp 44100 1024)])
            ++ [EvSleep (1024 / 44100)])
           rest aw)
        w' ->
      loop_spec ws l start w w'.

(** Transitions 2 and 3 together: the start time is read, the loop runs
    to its exit, and the terminal message is delivered. *)
Definition stream_spec (ws : nat) (l : positive) (w w' : World) : Prop :=
  exists (start : R) (rest : list R) (w1 : World) (a : await_outcome)
         (aw : list await_outcome),
    clock w = start :: rest /\
    loop_spec ws l start (mkWorld (manager w) (trace w) rest (awaits w)) w1 /\
    awaits w1 = a :: aw /\
    raised a = None /\
    w' = mkWorld (apply_env (others a) (manager w1))
                 (trace w1 ++ [EvSend ws (StatusMsg "completed" "Session finished")])
                 (clock w1) aw.

(** Buffers delivered one after the other, each followed by the pacing
    suspension. *)
Definition paced (ws : nat) (bufs : list json_msg) : list event :=
  flat_map (fun b => [EvSend ws b; EvSleep (1024 / 44100)]) bufs.

(** An audio message with the fixed synthesis parameters. *)
Definition is_audio_buffer (msg : json_msg) : Prop :=
  match msg with
  | AudioData lft rgt _ rate size => rate = 44100%Z /\ size = 1024%Z
  | StatusMsg _ _ => False
  end.

Definition is_audio (ev : event) : bool :=
  match ev with
  | EvSend _ (AudioData _ _ _ _ _) => true
  | _ => false
  end.

(** *** Invariants of the registry *)

(** Every reference of the registry points to an object. *)
Definition wf_manager (m : Manager) : Prop :=
  forall (id : string) (l : positive),
    sessions m !! id = Some l -> is_Some (heap m !! l).

(** The registry knows the identifier. *)
Definition known (id : string) (m : Manager) : Prop :=
  wf_manager m /\ is_Some (sessions m !! id).

(** A computation keeps a property of the session manager. *)
Definition preserves {A : Type} (P : Manager -> Prop) (c : M A) : Prop :=
  forall w : World, P (manager w) -> P (manager (snd (c w))).

(** The state the cleanup leaves for an identifier. *)
Definition cleaned (id : string) (m : Manager) : Prop :=
  exists (l : positive) (s : SessionData),
    sessions m !! id = Some l /\
    heap m !! l = Some s /\
    is_active s = false /\
    active_connections m !! id = None.

End Runs.

(** ** A runtime and a scenario to run the definitions on *)

Definition example_runtime : PyRuntime := {|
  py_hash := fun s => Z.of_nat (String.length s);
  config_str := fun c => waveform c;
  exn_str := fun e =>
    match e with
    | HTTPException code detail => pretty code ++ ": " ++ detail
    | ValueError msg => msg
    | RuntimeError msg => msg
    | WebSocketDisconnect => ""
    | CancelledError => ""
    end
|}.

Definition example_config : BinauralConfig := mkConfig 200 10 "sine" 1 (/ 2).

(** An [await] during which nothing else happens. *)
Definition quiet : await_outcome := mkAwait [] None.

Definition example_world : World :=
  mkWorld SessionManager.init [] [0%R] [quiet; quiet].

(** A registry holding one session, active or not, and worlds in which a
    client streams it: two buffers are due before the second elapses. *)
Definition example_manager (active : bool) : Manager :=
  mkManager {[1%positive := mkSession "s" example_config 0 active]}
            {["s" := 1%positive]} ∅.

Definition stream_world : World :=
  mkWorld (example_manager true) []
          [0; / 10; / 10; / 2; / 2; 2]%R
          [quiet; quiet; quiet; quiet; quiet; quiet].

Definition example_channel (f : R) : list R :=
  map (fun x => x * / 2)%R
    (map (spec_sample "sine" f)
       (sample_times (IZR BUFFER_SIZE / IZR SAMPLE_RATE)
          (Int_part (IZR BUFFER_SIZE / IZR SAMPLE_RATE * IZR SAMPLE_RATE)))).

Definition example_buffer (stamp : R) : json_msg :=
  AudioData (example_channel 200) (example_channel (200 + 10)) stamp 44100 1024.

(** A configuration within every field's range whose frequencies add up
    to 1010. *)
Definition over_limit_config : BinauralConfig := mkConfig 980 30 "sine" 60 (/ 2).

Definition inactive_world : World :=
  mkWorld (example_manager false) [] [0%R] [quiet; quiet].

(** The first delivery fails: the client is gone, or the transport breaks. *)
Definition failing_world (e : exn) : World :=
  mkWorld (example_manager true) [] [0; / 10; / 10]%R
          [quiet; mkAwait [] (Some e); quiet].

(** A terminate request for the session arrives during the first pacing
    suspension. *)
Definition terminated_world : World :=
  mkWorld (example_manager true) [] [0; / 10; / 10]%R
          [quiet; quiet; mkAwait [OpEnd "s"] None; quiet].

(** ** Monitoring and shutdown *)

(** [s.is_active] for the object a registry entry refers to. *)
Definition entry_active (m : Manager) (e : string * positive) : bool :=
  match heap m !! e.2 with
  | Some s => is_active s
  | None => false
  end.

(** The three numbers [get_metrics] reports:
    [len([s for s in sessions.values() if s.is_active])], [len(sessions)]
    and [len(active_connections)]. *)
Definition active_sessions (m : Manager) : nat :=
  length (List.filter (entry_active m) (map_to_list (sessions m))).

Definition total_sessions (m : Manager) : nat := size (sessions m).

Definition websocket_connections (m : Manager) : nat :=
  size (active_connections m).

(** The body of [GET /health]. *)
Inductive health : Type :=
  | Healthy (status : string) (timestamp : R)
            (active_sessions active_connections : nat)
            (version environment port : string) (uptime : R)
  | Unhealthy (status error : string) (timestamp : R).

Section Monitoring.
Context `{PyRuntime}.

(** [health_check]; [environment] and [port] are what [os.getenv] returns
    for [ENVIRONMENT] and [PORT] (with their defaults), [startup_time] the
    reading of the clock taken when the module was loaded. *)
Definition health_check (environment port : string) (startup_time : R)
  : M health :=
  try_except
    (let* timestamp := time_time in
     let* m := get_manager in
     let* now := time_time in
     ret (Healthy "healthy" timestamp (size (sessions m))
            (size (active_connections m)) "1.0.0" environment port
            (now - startup_time)%R))
    (fun e =>
       if is_Exception e then
         let* timestamp := time_time in
         ret (Unhealthy "unhealthy" (exn_str e) timestamp)
       else raise e).

(** [end_session] for each identifier of [ids], in that order. *)
Definition end_all (ids : list string) (m : Manager) : Manager :=
  fold_left (fun m id => SessionManager.end_session id m) ids m.

(** [shutdown_event]: [end_session] for every key the registry lists. *)
Definition shutdown_event : M unit :=
  modify_manager (fun m => end_all (map fst (map_to_list (sessions m))) m).

End Monitoring.

(** ** Presets *)

(** [PRESETS], in the order of the dictionary; [volume] takes its default. *)
Definition PRESETS : list (string * BinauralConfig) :=
  [("focus", mkConfig 200 40 "sine" 1800 (/ 2));
   ("relaxation", mkConfig 150 8 "sine" 1800 (/ 2));
   ("deep_sleep", mkConfig 100 2 "sine" 3600 (/ 2));
   ("creativity", mkConfig 180 6 "sine" 1800 (/ 2));
   ("meditation", mkConfig 120 4 "sine" 2400 (/ 2))].

(** ** Streams, seen from the client *)

(** A terminal message ("completed" or "error"). *)
Definition is_status (ev : event) : bool :=
  match ev with
  | EvSend _ (StatusMsg _ _) => true
  | _ => false
  end.

(** One channel of a streaming buffer at frequency [f]: the per-kind
    formula at the instants [i / 44100], [i] below 1024, times the volume. *)
Definition buffer_channel (c : BinauralConfig) (f : R) : list R :=
  map (fun x => x * volume c)%R
    (map (spec_sample (waveform c) f)
       (sample_times (IZR BUFFER_SIZE / IZR SAMPLE_RATE) BUFFER_SIZE)).

(** The message a stream sends for a buffer stamped [stamp]. *)
Definition buffer_message (c : BinauralConfig) (stamp : R) : json_msg :=
  AudioData (buffer_channel c (carrier_freq c))
            (buffer_channel c (carrier_freq c + beat_freq c))
            stamp SAMPLE_RATE BUFFER_SIZE.

(** The clock as the loop reads it, a test of the condition and then the
    stamp of the buffer, when every suspension lasts at least the buffer
    period: the next test does not come before [lower]. *)
Fixpoint paced_clock (lower : R) (clock : list R) : Prop :=
  match clock with
  | now :: _ :: rest =>
    (lower <= now)%R /\ paced_clock (now + IZR BUFFER_SIZE / IZR SAMPLE_RATE)%R rest
  | _ => True
  end.

(** A computation adds to the trace only events that satisfy [P]. *)
Definition emits_only {A : Type} (P : event -> Prop) (c : M A) : Prop :=
  forall w : World,
    exists evs : list event,
      trace (snd (c w)) = (trace w ++ evs)%list /\ Forall P evs.

(** A configuration that asks for a waveform kind the generator does not
    have, as only a caller that bypasses the request validation can build. *)
Definition unsupported_config : BinauralConfig := mkConfig 200 10 "noise" 60 (/ 2).

(** * Properties *)

(** ** Truncation and floor *)

Section Floor.
Local Open Scope R_scope.

Lemma Int_part_IZR (z : Z) : Int_part (IZR z) = z.
Proof. symmetry. apply Int_part_spec. lra. Qed.

Lemma Int_part_nonneg (x : R) : 0 <= x -> (0 <= Int_part x)%Z.
Proof.
  intros Hx. destruct (base_Int_part x) as [_ Hlow].
  assert (Hlt : IZR (-1) < IZR (Int_part x)) by (simpl; lra).
  apply lt_IZR in Hlt. lia.
Qed.

Lemma Int_part_between (x : R) (z : Z) :
  IZR z <= x < IZR z + 1 -> Int_part x = z.
Proof. intros Hx. symmetry. apply Int_part_spec. lra. Qed.

Lemma py_int_nonneg (x : R) : 0 <= x -> py_int x = Int_part x.
Proof. intros Hx. unfold py_int. destruct (Rle_dec 0 x); [reflexivity | contradiction]. Qed.

Lemma py_int_IZR (z : Z) : py_int (IZR z) = z.
Proof.
  unfold py_int. destruct (Rle_dec 0 (IZR z)).
  - apply Int_part_IZR.
  - rewrite <- opp_IZR, Int_part_IZR. lia.
Qed.

Lemma buffer_sample_count :
  py_int (IZR BUFFER_SIZE / IZR SAMPLE_RATE * IZR SAMPLE_RATE) = BUFFER_SIZE.
Proof.
  replace (IZR BUFFER_SIZE / IZR SAMPLE_RATE * IZR SAMPLE_RATE) with (IZR BUFFER_SIZE).
  - apply py_int_IZR.
  - unfold SAMPLE_RATE. field.
Qed.

End Floor.

(** The binary64 evaluation agrees with the exact one: 1024 samples. *)
Lemma binary64_buffer_samples : Binary64.buffer_samples = Some BUFFER_SIZE.
Proof. vm_compute. reflexivity. Qed.

(** ** Waveform synthesis *)

Section Waveform.
Local Open Scope R_scope.
Import BinauralGenerator.

Lemma linspace_from_zero (d : R) (n : Z) :
  (0 <= n)%Z -> linspace 0 d n = Ok (sample_times d n).
Proof.
  intros Hn. unfold linspace, sample_times.
  destruct (Z.ltb_spec n 0); [lia |].
  f_equal. apply map_ext. intros i.
  unfold Rminus. rewrite Ropp_0, !Rplus_0_r. reflexivity.
Qed.

Lemma generate_waveform_supported (f d : R) (w : string) :
  supported_waveform w -> 0 <= d ->
  generate_waveform f d w
  = Ok (map (spec_sample w f) (sample_times d (Int_part (d * IZR SAMPLE_RATE)))).
Proof.
  intros Hw Hd. unfold generate_waveform, sample_rate.
  assert (Hprod : 0 <= d * IZR SAMPLE_RATE).
  { apply Rmult_le_pos; [exact Hd | unfold SAMPLE_RATE; lra]. }
  rewrite (py_int_nonneg _ Hprod).
  rewrite (linspace_from_zero d _ (Int_part_nonneg _ Hprod)).
  destruct Hw as [-> | [-> | [-> | ->]]]; simpl; f_equal.
Qed.

Lemma length_sample_times (d : R) (n : Z) :
  length (sample_times d n) = Z.to_nat n.
Proof. unfold sample_times. rewrite length_map, length_seq. reflexivity. Qed.

Lemma nth_sample_times (d : R) (n : Z) (i : nat) :
  (i < Z.to_nat n)%nat ->
  nth_error (sample_times d n) i = Some (INR i * (d / IZR n)).
Proof.
  intros Hi. unfold sample_times.
  rewrite nth_error_map, nth_error_seq.
  destruct (Nat.ltb_spec i (Z.to_nat n)); [reflexivity | lia].
Qed.

End Waveform.

Section WaveformClaims.
Local Open Scope R_scope.
Import BinauralGenerator.






End WaveformClaims.

(** ** Running the monad *)

Section Running.
Context `{PyRuntime}.

Lemma time_time_run (w : World) (t : R) (rest : list R) :
  clock w = t :: rest ->
  time_time w = (Ret t, mkWorld (manager w) (trace w) rest (awaits w)).
Proof. intros Hc. unfold time_time. rewrite Hc. reflexivity. Qed.

Lemma await_returns (ev : event) (w : World) (a : await_outcome)
    (rest : list await_outcome) :
  awaits w = a :: rest -> raised a = None ->
  await ev w
  = (Ret tt, mkWorld (apply_env (others a) (manager w)) (trace w ++ [ev])
                     (clock w) rest).
Proof. intros Ha Hr. unfold await. rewrite Ha, Hr. reflexivity. Qed.

Lemma await_raises (ev : event) (w : World) (a : await_outcome)
    (rest : list await_outcome) (e : exn) :
  awaits w = a :: rest -> raised a = Some e ->
  await ev w
  = (Raise e, mkWorld (apply_env (others a) (manager w)) (trace w)
                      (clock w) rest).
Proof. intros Ha Hr. unfold await. rewrite Ha, Hr. reflexivity. Qed.

(** A buffer for a supported waveform: both channels are generated, the
    clock is read once for the timestamp, nothing else changes. *)
Lemma generate_binaural_beats_run (c : BinauralConfig) (w : World) (l r : list R)
    (t : R) (rest : list R) :
  BinauralGenerator.generate_waveform (carrier_freq c)
    (IZR BUFFER_SIZE / IZR SAMPLE_RATE) (waveform c) = Ok l ->
  BinauralGenerator.generate_waveform (carrier_freq c + beat_freq c)
    (IZR BUFFER_SIZE / IZR SAMPLE_RATE) (waveform c) = Ok r ->
  clock w = t :: rest ->
  BinauralGenerator.generate_binaural_beats c w
  = (Ret (mkBuffer (map (fun x => x * volume c)%R l)
                   (map (fun x => x * volume c)%R r) t),
     mkWorld (manager w) (trace w) rest (awaits w)).
Proof.
  intros Hl Hr Hc.
  unfold BinauralGenerator.generate_binaural_beats, try_except, bind.
  unfold BinauralGenerator.buffer_size, BinauralGenerator.sample_rate.
  rewrite Hl. unfold BinauralGenerator.lift at 1. unfold ret at 1.
  rewrite Hr. unfold BinauralGenerator.lift at 1. unfold ret at 1.
  rewrite (time_time_run w t rest Hc). reflexivity.
Qed.

End Running.

Section BinauralClaims.
Local Open Scope R_scope.

Lemma buffer_waveform (f : R) (w : string) :
  supported_waveform w ->
  exists l, BinauralGenerator.generate_waveform f (IZR BUFFER_SIZE / IZR SAMPLE_RATE) w = Ok l /\
            length l = 1024%nat.
Proof.
  intros Hw. eexists. split.
  - apply generate_waveform_supported; [exact Hw |].
    unfold BUFFER_SIZE, SAMPLE_RATE. lra.
  - rewrite length_map, length_sample_times.
    rewrite <- py_int_nonneg by (unfold BUFFER_SIZE, SAMPLE_RATE; lra).
    rewrite buffer_sample_count. reflexivity.
Qed.

(** C4.  For every valid configuration, [generate_binaural_beats] builds
    the left channel at [carrier_freq] and the right channel at
    [carrier_freq + beat_freq], both over the buffer duration
    [1024 / 44100] whatever the configured duration, both of 1024
    samples, every sample multiplied by [volume]. *)
Theorem generate_binaural_beats_channels (c : BinauralConfig) (w : World)
    (t : R) (rest : list R) :
  valid_config c -> clock w = t :: rest ->
  exists l r b,
    BinauralGenerator.generate_waveform (carrier_freq c)
      (IZR BUFFER_SIZE / IZR SAMPLE_RATE) (waveform c) = Ok l /\
    BinauralGenerator.generate_waveform (carrier_freq c + beat_freq c)
      (IZR BUFFER_SIZE / IZR SAMPLE_RATE) (waveform c) = Ok r /\
    BinauralGenerator.generate_binaural_beats c w
    = (Ret b, mkWorld (manager w) (trace w) rest (awaits w)) /\
    left_channel b = map (fun x => x * volume c) l /\
    right_channel b = map (fun x => x * volume c) r /\
    timestamp b = t /\
    length (left_channel b) = 1024%nat /\
    length (right_channel b) = 1024%nat /\
    BUFFER_SIZE = 1024%Z /\ SAMPLE_RATE = 44100%Z.
Proof.
  intros (_ & _ & Hw & _ & _) Hc.
  destruct (buffer_waveform (carrier_freq c) (waveform c) Hw) as (l & Hl & Hlen).
  destruct (buffer_waveform (carrier_freq c + beat_freq c) (waveform c) Hw)
    as (r & Hr & Hlen').
  exists l, r. eexists.
  split; [exact Hl |]. split; [exact Hr |].
  split; [apply (generate_binaural_beats_run c w l r t rest Hl Hr Hc) |].
  cbn [left_channel right_channel timestamp].
  rewrite !length_map.
  repeat split; assumption.
Qed.

End BinauralClaims.

Lemma generate_binaural_beats_channels_witness :
  exists l r b,
    BinauralGenerator.generate_waveform 200
      (IZR BUFFER_SIZE / IZR SAMPLE_RATE) "sine" = Ok l /\
    BinauralGenerator.generate_waveform (200 + 10)
      (IZR BUFFER_SIZE / IZR SAMPLE_RATE) "sine" = Ok r /\
    BinauralGenerator.generate_binaural_beats example_config example_world
    = (Ret b, mkWorld SessionManager.init [] [] [quiet; quiet]) /\
    left_channel b = map (fun x => x * / 2)%R l /\
    right_channel b = map (fun x => x * / 2)%R r /\
    timestamp b = 0%R /\
    length (left_channel b) = 1024%nat /\
    length (right_channel b) = 1024%nat /\
    BUFFER_SIZE = 1024%Z /\ SAMPLE_RATE = 44100%Z.
Proof.
  apply (generate_binaural_beats_channels example_config example_world 0%R []).
  - unfold valid_config, example_config, supported_waveform. simpl.
    repeat split; try lra; try lia. left. reflexivity.
  - reflexivity.
Defined.

(** ** The streaming loop *)

Section Streaming.
Context `{PyRuntime}.

Local Open Scope R_scope.
Local Open Scope list_scope.

Lemma generate_binaural_beats_inv (c : BinauralConfig) (w w' : World)
    (b : AudioBuffer) :
  BinauralGenerator.generate_binaural_beats c w = (Ret b, w') ->
  exists (l r : list R) (t : R) (rest : list R),
    BinauralGenerator.generate_waveform (carrier_freq c)
      (IZR BUFFER_SIZE / IZR SAMPLE_RATE) (waveform c) = Ok l /\
    BinauralGenerator.generate_waveform (carrier_freq c + beat_freq c)
      (IZR BUFFER_SIZE / IZR SAMPLE_RATE) (waveform c) = Ok r /\
    clock w = t :: rest /\
    b = mkBuffer (map (fun x => x * volume c) l) (map (fun x => x * volume c) r) t /\
    w' = mkWorld (manager w) (trace w) rest (awaits w).
Proof.
  unfold BinauralGenerator.generate_binaural_beats, try_except, bind.
  unfold BinauralGenerator.buffer_size, BinauralGenerator.sample_rate.
  destruct (BinauralGenerator.generate_waveform (carrier_freq c) _ _) as [l | e] eqn:Hl;
    cbn [BinauralGenerator.lift ret raise].
  - destruct (BinauralGenerator.generate_waveform (carrier_freq c + beat_freq c) _ _)
      as [r | e] eqn:Hr; cbn [BinauralGenerator.lift ret raise].
    + unfold time_time. destruct (clock w) as [| t rest] eqn:Hc.
      * discriminate.
      * intros [= <- <-]. exists l, r, t, rest. repeat split; reflexivity.
    + destruct (is_Exception e); discriminate.
  - destruct (is_Exception e); discriminate.
Qed.

Lemma stream_loop_sound (ws : nat) (l : positive) (start : R) (fuel : nat) :
  forall w w' : World,
    stream_loop fuel ws l start w = (Ret tt, w') ->
    loop_spec ws l start w w'.
Proof.
  induction fuel as [| fuel IH]; intros w w' Hrun; [discriminate |].
  cbn [stream_loop] in Hrun. unfold bind at 1, get_manager in Hrun.
  destruct (heap (manager w) !! l) as [s |] eqn:Hs; [| discriminate].
  destruct (is_active s) eqn:Hact.
  2:{ injection Hrun as <-. eapply loop_inactive; eassumption. }
  unfold bind at 1, time_time in Hrun.
  destruct (clock w) as [| now rest] eqn:Hc; [discriminate |].
  destruct (Rlt_dec (now - start) (IZR (duration (config s)))) as [Hlt | Hge].
  2:{ injection Hrun as <-. eapply loop_expired; eassumption. }
  unfold bind at 1 in Hrun.
  destruct (BinauralGenerator.generate_binaural_beats (config s) _)
    as [[b | e |] w1] eqn:Hgen; try discriminate.
  apply generate_binaural_beats_inv in Hgen
    as (lft & rgt & stamp & rest' & Hl & Hr & Hc' & -> & ->).
  cbn [clock] in Hc'. subst rest.
  unfold bind at 1, await at 1 in Hrun. cbn [awaits manager trace clock] in Hrun.
  destruct (awaits w) as [| a1 aw] eqn:Ha; [discriminate |].
  destruct (raised a1) eqn:Hr1; [discriminate |].
  unfold bind at 1, await at 1 in Hrun. cbn [awaits manager trace clock] in Hrun.
  destruct aw as [| a2 aw]; [discriminate |].
  destruct (raised a2) eqn:Hr2; [discriminate |].
  apply IH in Hrun.
  eapply loop_tick; eauto.
Qed.

Lemma stream_loop_inactive (fuel ws : nat) (l : positive) (start : R)
    (w : World) (s : SessionData) :
  heap (manager w) !! l = Some s -> is_active s = false ->
  stream_loop (S fuel) ws l start w = (Ret tt, w).
Proof.
  intros Hs Hact. cbn [stream_loop]. unfold bind, get_manager.
  rewrite Hs, Hact. reflexivity.
Qed.

Lemma stream_loop_expired (fuel ws : nat) (l : positive) (start : R)
    (w : World) (s : SessionData) (now : R) (rest : list R) :
  heap (manager w) !! l = Some s -> is_active s = true ->
  clock w = now :: rest ->
  ~ now - start < IZR (duration (config s)) ->
  stream_loop (S fuel) ws l start w
  = (Ret tt, mkWorld (manager w) (trace w) rest (awaits w)).
Proof.
  intros Hs Hact Hc Hge. cbn [stream_loop]. unfold bind, get_manager, time_time.
  rewrite Hs, Hact, Hc.
  destruct (Rlt_dec _ _); [contradiction | reflexivity].
Qed.

Lemma stream_loop_tick (fuel ws : nat) (l : positive) (start : R)
    (w : World) (s : SessionData) (now stamp : R) (rest : list R)
    (a1 a2 : await_outcome) (aw : list await_outcome) (lft rgt : list R) :
  heap (manager w) !! l = Some s -> is_active s = true ->
  clock w = now :: stamp :: rest ->
  now - start < IZR (duration (config s)) ->
  BinauralGenerator.generate_waveform (carrier_freq (config s))
    (IZR BUFFER_SIZE / IZR SAMPLE_RATE) (waveform (config s)) = Ok lft ->
  BinauralGenerator.generate_waveform
    (carrier_freq (config s) + beat_freq (config s))
    (IZR BUFFER_SIZE / IZR SAMPLE_RATE) (waveform (config s)) = Ok rgt ->
  awaits w = a1 :: a2 :: aw -> raised a1 = None -> raised a2 = None ->
  stream_loop (S fuel) ws l start w
  = stream_loop fuel ws l start
      (mkWorld
         (apply_env (others a2) (apply_env (others a1) (manager w)))
         ((trace w
           ++ [EvSend ws
                 (AudioData (map (fun x => x * volume (config s)) lft)
                            (map (fun x => x * volume (config s)) rgt)
                            stamp 44100 1024)])
          ++ [EvSleep (1024 / 44100)])
         rest aw).
Proof.
  intros Hs Hact Hc Hlt Hl Hr Ha Hr1 Hr2.
  cbn [stream_loop]. unfold bind at 1, get_manager.
  rewrite Hs, Hact. unfold bind at 1, time_time. rewrite Hc.
  destruct (Rlt_dec _ _); [| contradiction].
  unfold bind at 1.
  erewrite generate_binaural_beats_run by eauto.
  unfold bind at 1.
  erewrite await_returns by eauto.
  unfold bind at 1.
  erewrite await_returns by (cbn [awaits]; eauto).
  reflexivity.
Qed.

Lemma stream_loop_send_raises (fuel ws : nat) (l : positive) (start : R)
    (w : World) (s : SessionData) (now stamp : R) (rest : list R)
    (a1 : await_outcome) (aw : list await_outcome) (lft rgt : list R) (e : exn) :
  heap (manager w) !! l = Some s -> is_active s = true ->
  clock w = now :: stamp :: rest ->
  now - start < IZR (duration (config s)) ->
  BinauralGenerator.generate_waveform (carrier_freq (config s))
    (IZR BUFFER_SIZE / IZR SAMPLE_RATE) (waveform (config s)) = Ok lft ->
  BinauralGenerator.generate_waveform
    (carrier_freq (config s) + beat_freq (config s))
    (IZR BUFFER_SIZE / IZR SAMPLE_RATE) (waveform (config s)) = Ok rgt ->
  awaits w = a1 :: aw -> raised a1 = Some e ->
  stream_loop (S fuel) ws l start w
  = (Raise e, mkWorld (apply_env (others a1) (manager w)) (trace w) rest aw).
Proof.
  intros Hs Hact Hc Hlt Hl Hr Ha Hr1.
  cbn [stream_loop]. unfold bind at 1, get_manager.
  rewrite Hs, Hact. unfold bind at 1, time_time. rewrite Hc.
  destruct (Rlt_dec _ _); [| contradiction].
  unfold bind at 1.
  erewrite generate_binaural_beats_run by eauto.
  unfold bind at 1.
  erewrite await_raises by eauto.
  reflexivity.
Qed.

Lemma stream_loop_complete (ws : nat) (l : positive) (start : R) (w w' : World) :
  loop_spec ws l start w w' ->
  exists fuel : nat, stream_loop fuel ws l start w = (Ret tt, w').
Proof.
  induction 1 as [w s Hs Hact | w s now rest Hs Hact Hc Hge
                 | w w' s now stamp rest a1 a2 aw lft rgt Hs Hact Hc Hlt Hl Hr
                     Ha Hr1 Hr2 _ [fuel IH]].
  - exists 1%nat. eapply stream_loop_inactive; eassumption.
  - exists 1%nat. eapply stream_loop_expired; eassumption.
  - exists (S fuel). rewrite <- IH. eapply stream_loop_tick; eassumption.
Qed.

Lemma loop_spec_trace (ws : nat) (l : positive) (start : R) (w w' : World) :
  loop_spec ws l start w w' ->
  exists bufs : list json_msg,
    trace w' = trace w ++ paced ws bufs /\ Forall is_audio_buffer bufs.
Proof.
  induction 1 as [w s Hs Hact | w s now rest Hs Hact Hc Hge
                 | w w' s now stamp rest a1 a2 aw lft rgt Hs Hact Hc Hlt Hl Hr
                     Ha Hr1 Hr2 _ (bufs & Htr & Hall)].
  - exists []. split; [symmetry; apply app_nil_r | constructor].
  - exists []. split; [symmetry; apply app_nil_r | constructor].
  - eexists (_ :: bufs). split.
    + rewrite Htr. cbn [trace paced flat_map].
      rewrite <- !app_assoc. reflexivity.
    + constructor; [split; reflexivity | exact Hall].
Qed.

(** C6.  The body of the stream returns normally exactly along the
    specified runs: a buffer with left and right channels, a timestamp,
    rate 44100 and size 1024 is delivered at each test of the loop that
    finds the session active and the elapsed time below the duration,
    each delivery is followed by a suspension of [1024 / 44100] seconds,
    and after the loop one "completed" message is delivered.  The
    transport sees the buffers, paced, then that message. *)
Theorem stream_body_delivery (ws : nat) (l : positive) (w w' : World) :
  ((exists fuel : nat, stream_body fuel ws l w = (Ret tt, w'))
   <-> stream_spec ws l w w') /\
  (stream_spec ws l w w' ->
   exists bufs : list json_msg,
     trace w' = trace w ++ paced ws bufs
                ++ [EvSend ws (StatusMsg "completed" "Session finished")] /\
     Forall is_audio_buffer bufs).
Proof.
  split; [split |].
  - intros [fuel Hrun]. unfold stream_body in Hrun.
    unfold bind at 1, time_time in Hrun.
    destruct (clock w) as [| start rest] eqn:Hc; [discriminate |].
    unfold bind at 1 in Hrun.
    destruct (stream_loop fuel ws l start _) as [[[] | e |] w1] eqn:Hloop;
      try discriminate.
    apply stream_loop_sound in Hloop.
    unfold await in Hrun.
    destruct (awaits w1) as [| a aw] eqn:Ha; [discriminate |].
    destruct (raised a) eqn:Hr; [discriminate |].
    injection Hrun as <-.
    exists start, rest, w1, a, aw. repeat split; assumption.
  - intros (start & rest & w1 & a & aw & Hc & Hloop & Ha & Hr & ->).
    destruct (stream_loop_complete _ _ _ _ _ Hloop) as [fuel Hrun].
    exists fuel. unfold stream_body.
    unfold bind at 1. rewrite (time_time_run w start rest Hc).
    unfold bind at 1. rewrite Hrun.
    apply await_returns; assumption.
  - intros (start & rest & w1 & a & aw & Hc & Hloop & Ha & Hr & ->).
    destruct (loop_spec_trace _ _ _ _ _ Hloop) as (bufs & Htr & Hall).
    exists bufs. split; [| exact Hall].
    cbn [trace] in *. rewrite Htr, <- app_assoc. reflexivity.
Qed.

End Streaming.

(** ** The session registry *)

Section Registry.
Context `{PyRuntime}.

Lemma create_session_wf (c : BinauralConfig) (now now_dt : R) (m : Manager) :
  wf_manager m -> wf_manager (snd (SessionManager.create_session c now now_dt m)).
Proof.
  intros Hwf id l. cbn [SessionManager.create_session snd sessions heap].
  intros Hl. apply lookup_insert_Some in Hl as [[_ <-] | [_ Hl]].
  - rewrite lookup_insert_eq. eauto.
  - apply Hwf in Hl. rewrite lookup_insert_is_Some. destruct Hl as [s Hs].
    destruct (decide (fresh (dom (heap m)) = l)); [left; assumption |].
    right. split; [assumption | eauto].
Qed.

Lemma end_session_sessions (id : string) (m : Manager) :
  sessions (SessionManager.end_session id m) = sessions m.
Proof.
  unfold SessionManager.end_session.
  destruct (sessions m !! id); reflexivity.
Qed.

Lemma end_session_heap_is_Some (id : string) (m : Manager) (l : positive) :
  is_Some (heap m !! l) -> is_Some (heap (SessionManager.end_session id m) !! l).
Proof.
  intros Hl. unfold SessionManager.end_session.
  destruct (sessions m !! id); [| exact Hl].
  cbn [heap]. apply lookup_alter_is_Some. exact Hl.
Qed.

Lemma end_session_wf (id : string) (m : Manager) :
  wf_manager m -> wf_manager (SessionManager.end_session id m).
Proof.
  intros Hwf id' l. rewrite end_session_sessions. intros Hl.
  apply end_session_heap_is_Some, (Hwf id'), Hl.
Qed.

Lemma apply_op_wf (op : env_op) (m : Manager) :
  wf_manager m -> wf_manager (apply_op op m).
Proof.
  intros Hwf. destruct op as [c now now_dt | id' | id' ws]; cbn [apply_op].
  - apply create_session_wf, Hwf.
  - apply end_session_wf, Hwf.
  - exact Hwf.
Qed.

(** No step of any coroutine removes an entry of the registry. *)
Lemma apply_op_known (id : string) (op : env_op) (m : Manager) :
  known id m -> known id (apply_op op m).
Proof.
  intros [Hwf Hid]. split; [apply apply_op_wf, Hwf |].
  destruct op as [c now now_dt | id' | id' ws]; cbn [apply_op].
  - cbn [SessionManager.create_session snd sessions].
    rewrite lookup_insert_is_Some.
    destruct (decide
      ("session_" ++ pretty (py_int now) ++ "_"
         ++ pretty (py_hash (config_str c) mod 10000) = id));
      [left; assumption | right; split; assumption].
  - rewrite end_session_sessions. exact Hid.
  - exact Hid.
Qed.

Lemma connect_known (id id' : string) (ws : nat) (m : Manager) :
  known id m -> known id (SessionManager.connect id' ws m).
Proof. intros Hm. exact Hm. Qed.

(** What [end_session] does to a registered session: the entry stays,
    the object is marked inactive, the connection is forgotten. *)
Lemma end_session_registered (id : string) (m : Manager) (l : positive)
    (s : SessionData) :
  sessions m !! id = Some l -> heap m !! l = Some s ->
  sessions (SessionManager.end_session id m) = sessions m /\
  heap (SessionManager.end_session id m) !! l = Some (SessionManager.deactivate s) /\
  active_connections (SessionManager.end_session id m) !! id = None.
Proof.
  intros Hl Hs. split; [apply end_session_sessions |].
  unfold SessionManager.end_session. rewrite Hl. cbn [heap active_connections].
  split.
  - rewrite lookup_alter_eq, Hs. reflexivity.
  - destruct (active_connections m !! id) eqn:Hc; [apply lookup_delete_eq | exact Hc].
Qed.

Lemma end_session_cleaned (id : string) (m : Manager) :
  known id m -> cleaned id (SessionManager.end_session id m).
Proof.
  intros [Hwf [l Hl]]. destruct (Hwf id l Hl) as [s Hs].
  destruct (end_session_registered id m l s Hl Hs) as (Hsess & Hheap & Hconn).
  exists l, (SessionManager.deactivate s).
  rewrite Hsess. repeat split; assumption.
Qed.

Lemma end_session_unknown (id : string) (m : Manager) :
  sessions m !! id = None -> SessionManager.end_session id m = m.
Proof. intros Hid. unfold SessionManager.end_session. rewrite Hid. reflexivity. Qed.

End Registry.

(** ** What a coroutine keeps true of the session manager *)

Section Preservation.
Context `{PyRuntime}.
Variable P : Manager -> Prop.
Hypothesis P_env : forall (op : env_op) (m : Manager), P m -> P (apply_op op m).

Lemma apply_env_keeps (ops : list env_op) :
  forall m : Manager, P m -> P (apply_env ops m).
Proof.
  unfold apply_env. induction ops as [| op ops IH]; intros m Hm; [exact Hm |].
  cbn [fold_left]. apply IH, P_env, Hm.
Qed.




Lemma preserves_get : preserves P get_manager.
Proof. intros w Hw. exact Hw. Qed.










End Preservation.

(** ** The stream handler *)

Section Handler.
Context `{PyRuntime}.

Local Open Scope R_scope.
Local Open Scope list_scope.

(** The stream of an identifier the registry does not know. *)
Lemma stream_unknown_run (fuel ws : nat) (id : string) (w : World)
    (a a' : await_outcome) (rest : list await_outcome) :
  awaits w = a :: a' :: rest -> raised a = None -> raised a' = None ->
  sessions (apply_env (others a) (manager w)) !! id = None ->
  websocket_audio_stream fuel ws id w
  = (Ret tt,
     mkWorld (apply_env (others a') (apply_env (others a) (manager w)))
             (trace w ++ [EvAccept ws; EvClose ws 4004 "Session not found"])
             (clock w) rest).
Proof.
  intros Ha Hr Hr' Hid. unfold websocket_audio_stream.
  unfold bind at 1. rewrite (await_returns _ w a (a' :: rest) Ha Hr).
  unfold bind at 1, get_manager, SessionManager.get_session.
  cbn [manager]. rewrite Hid.
  erewrite await_returns by (cbn [awaits]; eauto).
  cbn [manager trace clock]. rewrite <- app_assoc. reflexivity.
Qed.

(** The stream of a session that is registered but no longer active. *)
Lemma stream_inactive_run (fuel ws : nat) (id : string) (w : World)
    (a a' : await_outcome) (rest : list await_outcome) (l : positive)
    (s : SessionData) (t : R) (ts : list R) :
  awaits w = a :: a' :: rest -> raised a = None -> raised a' = None ->
  sessions (apply_env (others a) (manager w)) !! id = Some l ->
  heap (apply_env (others a) (manager w)) !! l = Some s ->
  is_active s = false ->
  clock w = t :: ts ->
  websocket_audio_stream (S fuel) ws id w
  = (Ret tt,
     mkWorld (SessionManager.end_session id
                (apply_env (others a')
                   (SessionManager.connect id ws
                      (apply_env (others a) (manager w)))))
             (trace w ++ [EvAccept ws;
                          EvSend ws (StatusMsg "completed" "Session finished")])
             ts rest).
Proof.
  intros Ha Hr Hr' Hid Hs Hact Hc. unfold websocket_audio_stream.
  unfold bind at 1. rewrite (await_returns _ w a (a' :: rest) Ha Hr).
  unfold bind at 1, get_manager, SessionManager.get_session.
  cbn [manager]. rewrite Hid.
  unfold bind at 1, modify_manager. cbn [manager trace clock awaits].
  unfold try_finally, try_except, stream_body.
  unfold bind at 1. erewrite time_time_run by (cbn [clock]; eauto).
  unfold bind at 1. cbn [stream_loop]. unfold bind at 1, get_manager.
  cbn [manager SessionManager.connect heap]. rewrite Hs, Hact.
  unfold ret. cbn [manager trace clock awaits].
  erewrite await_returns by (cbn [awaits]; eauto).
  cbn [manager trace clock awaits]. unfold modify_manager.
  cbn [manager trace clock awaits]. rewrite <- app_assoc. reflexivity.
Qed.

(** The stream of a registered session: the connection is recorded and
    the [try] statement runs. *)
Lemma stream_known_eq (fuel ws : nat) (id : string) (w : World)
    (a : await_outcome) (rest : list await_outcome) (l : positive) :
  awaits w = a :: rest -> raised a = None ->
  sessions (apply_env (others a) (manager w)) !! id = Some l ->
  websocket_audio_stream fuel ws id w
  = try_finally
      (try_except (stream_body fuel ws l) (stream_except ws))
      (modify_manager (SessionManager.end_session id))
      (mkWorld (SessionManager.connect id ws (apply_env (others a) (manager w)))
               (trace w ++ [EvAccept ws]) (clock w) rest).
Proof.
  intros Ha Hr Hl. unfold websocket_audio_stream.
  unfold bind at 1. rewrite (await_returns _ w a rest Ha Hr).
  unfold bind at 1, get_manager, SessionManager.get_session.
  cbn [manager]. rewrite Hl.
  unfold bind at 1, modify_manager. reflexivity.
Qed.


End Handler.

(** ** The scenario, run *)

Section Scenario.
Local Open Scope R_scope.
Local Open Scope list_scope.

#[local] Existing Instance example_runtime.

Lemma example_waveform (f : R) :
  BinauralGenerator.generate_waveform f (IZR BUFFER_SIZE / IZR SAMPLE_RATE) "sine"
  = Ok (map (spec_sample "sine" f)
          (sample_times (IZR BUFFER_SIZE / IZR SAMPLE_RATE)
             (Int_part (IZR BUFFER_SIZE / IZR SAMPLE_RATE * IZR SAMPLE_RATE)))).
Proof.
  apply generate_waveform_supported; [left; reflexivity |].
  unfold BUFFER_SIZE, SAMPLE_RATE. lra.
Qed.

Lemma example_manager_wf (active : bool) : wf_manager (example_manager active).
Proof.
  intros id l Hl. cbn [example_manager sessions heap] in *.
  apply lookup_singleton_Some in Hl as [_ <-].
  rewrite lookup_singleton_eq. eauto.
Qed.

(** Two buffers, then the elapsed time has reached the duration. *)
Lemma example_body_run (m : Manager) (tr : list event)
    (rest : list await_outcome) :
  heap m !! 1%positive = Some (mkSession "s" example_config 0 true) ->
  stream_body 3 7 1
    (mkWorld m tr [0; / 10; / 10; / 2; / 2; 2]
             (quiet :: quiet :: quiet :: quiet :: quiet :: rest))
  = (Ret tt,
     mkWorld m
       (tr ++ [EvSend 7 (example_buffer (/ 10)); EvSleep (1024 / 44100);
               EvSend 7 (example_buffer (/ 2)); EvSleep (1024 / 44100);
               EvSend 7 (StatusMsg "completed" "Session finished")])
       [] rest).
Proof.
  intros Hs. unfold stream_body.
  unfold bind at 1. erewrite time_time_run by reflexivity.
  cbn [manager trace clock awaits]. unfold bind at 1.
  erewrite (stream_loop_tick 2 7 1 0 _ _ (/ 10) (/ 10));
    [ | exact Hs | reflexivity | reflexivity | cbn; lra
      | apply example_waveform | apply example_waveform
      | reflexivity | reflexivity | reflexivity ].
  cbn [manager trace clock awaits quiet others apply_env fold_left].
  erewrite (stream_loop_tick 1 7 1 0 _ _ (/ 2) (/ 2));
    [ | exact Hs | reflexivity | reflexivity | cbn; lra
      | apply example_waveform | apply example_waveform
      | reflexivity | reflexivity | reflexivity ].
  cbn [manager trace clock awaits quiet others apply_env fold_left].
  erewrite (stream_loop_expired 0 7 1 0 _ _ 2);
    [ | exact Hs | reflexivity | reflexivity | cbn; lra ].
  unfold bind. erewrite await_returns by reflexivity.
  cbn [manager trace clock awaits quiet others apply_env fold_left].
  rewrite <- !app_assoc. reflexivity.
Qed.

Lemma stream_body_delivery_witness :
  exists w' : World,
    stream_spec 7 1 stream_world w' /\
    trace w' = paced 7 [example_buffer (/ 10); example_buffer (/ 2)]
               ++ [EvSend 7 (StatusMsg "completed" "Session finished")].
Proof.
  eexists. split.
  - apply (proj1 (stream_body_delivery 7 1 stream_world _)).
    exists 3%nat. apply (example_body_run (example_manager true) [] [quiet]).
    reflexivity.
  - reflexivity.
Defined.


(** The other ways out of the stream. *)

Lemma example_failing_body (e : exn) (m : Manager) (tr : list event)
    (rest : list await_outcome) :
  heap m !! 1%positive = Some (mkSession "s" example_config 0 true) ->
  stream_body 3 7 1
    (mkWorld m tr [0; / 10; / 10] (mkAwait [] (Some e) :: rest))
  = (Raise e, mkWorld m tr [] rest).
Proof.
  intros Hs. unfold stream_body.
  unfold bind at 1. erewrite time_time_run by reflexivity.
  cbn [manager trace clock awaits]. unfold bind at 1.
  erewrite (stream_loop_send_raises 2 7 1 0 _ _ (/ 10) (/ 10));
    [ | exact Hs | reflexivity | reflexivity | cbn; lra
      | apply example_waveform | apply example_waveform
      | reflexivity | reflexivity ].
  reflexivity.
Qed.

(** The client disconnects: nothing more is sent, the cleanup runs. *)
Lemma example_disconnect_run :
  websocket_audio_stream 3 7 "s" (failing_world WebSocketDisconnect)
  = (Ret tt,
     mkWorld (SessionManager.end_session "s"
                (SessionManager.connect "s" 7 (example_manager true)))
             [EvAccept 7] [] [quiet]).
Proof.
  rewrite (stream_known_eq 3 7 "s" (failing_world WebSocketDisconnect) quiet
             [mkAwait [] (Some WebSocketDisconnect); quiet] 1 eq_refl eq_refl eq_refl).
  unfold try_finally, try_except. cbn [failing_world clock].
  rewrite example_failing_body by reflexivity.
  reflexivity.
Qed.

(** The delivery fails otherwise: the "error" message is sent, the
    cleanup runs. *)
Lemma example_failure_run :
  websocket_audio_stream 3 7 "s" (failing_world (RuntimeError "boom"))
  = (Ret tt,
     mkWorld (SessionManager.end_session "s"
                (SessionManager.connect "s" 7 (example_manager true)))
             [EvAccept 7; EvSend 7 (StatusMsg "error" "boom")] [] []).
Proof.
  rewrite (stream_known_eq 3 7 "s" (failing_world (RuntimeError "boom")) quiet
             [mkAwait [] (Some (RuntimeError "boom")); quiet] 1
             eq_refl eq_refl eq_refl).
  unfold try_finally, try_except. cbn [failing_world clock].
  rewrite example_failing_body by reflexivity.
  reflexivity.
Qed.

(** The coroutine is cancelled: no clause catches it, the cleanup runs. *)
Lemma example_cancelled_run :
  websocket_audio_stream 3 7 "s" (failing_world CancelledError)
  = (Raise CancelledError,
     mkWorld (SessionManager.end_session "s"
                (SessionManager.connect "s" 7 (example_manager true)))
             [EvAccept 7] [] [quiet]).
Proof.
  rewrite (stream_known_eq 3 7 "s" (failing_world CancelledError) quiet
             [mkAwait [] (Some CancelledError); quiet] 1 eq_refl eq_refl eq_refl).
  unfold try_finally, try_except. cbn [failing_world clock].
  rewrite example_failing_body by reflexivity.
  reflexivity.
Qed.

(** A terminate request during the first suspension marks the object the
    loop holds inactive: the next test leaves the loop, one buffer has been
    delivered and none follows. *)
Lemma example_terminated_run :
  exists m : Manager,
    websocket_audio_stream 3 7 "s" terminated_world
    = (Ret tt,
       mkWorld m
         [EvAccept 7; EvSend 7 (example_buffer (/ 10)); EvSleep (1024 / 44100);
          EvSend 7 (StatusMsg "completed" "Session finished")]
         [] []) /\
    cleaned "s" m.
Proof.
  eexists. split.
  - rewrite (stream_known_eq 3 7 "s" terminated_world quiet
               [quiet; mkAwait [OpEnd "s"] None; quiet] 1 eq_refl eq_refl eq_refl).
    unfold try_finally, try_except, stream_body. cbn [terminated_world clock].
    unfold bind at 1. erewrite time_time_run by reflexivity.
    cbn [manager trace clock awaits]. unfold bind at 1.
    erewrite (stream_loop_tick 2 7 1 0 _ _ (/ 10) (/ 10));
      [ | reflexivity | reflexivity | reflexivity | cbn; lra
        | apply example_waveform | apply example_waveform
        | reflexivity | reflexivity | reflexivity ].
    erewrite (stream_loop_inactive 1 7 1 0); [ | reflexivity | reflexivity ].
    erewrite await_returns by reflexivity.
    reflexivity.
  - apply end_session_cleaned, (apply_env_keeps _ (apply_op_known "s")).
    apply (apply_env_keeps _ (apply_op_known "s") [OpEnd "s"]).
    apply (apply_env_keeps _ (apply_op_known "s") []).
    apply connect_known. split; [apply example_manager_wf | exists 1%positive; reflexivity].
Qed.

End Scenario.

(** ** Unknown and inactive sessions *)

Section Lookup.
Context `{PyRuntime}.

Local Open Scope list_scope.

Lemma get_session_info_unknown (id : string) (w : World) :
  sessions (manager w) !! id = None ->
  get_session_info id w = (Raise (HTTPException 404 "Session not found"), w).
Proof.
  intros Hid. unfold get_session_info, bind, get_manager, SessionManager.get_session.
  rewrite Hid. reflexivity.
Qed.

Lemma end_session_route_run (id : string) (w : World) :
  end_session id w
  = (Ret (EndResponse "session_ended" id),
     mkWorld (SessionManager.end_session id (manager w)) (trace w) (clock w)
             (awaits w)).
Proof. reflexivity. Qed.

Lemma end_session_route_unknown (id : string) (w : World) :
  sessions (manager w) !! id = None ->
  end_session id w = (Ret (EndResponse "session_ended" id), w).
Proof.
  intros Hid. rewrite end_session_route_run, end_session_unknown by exact Hid.
  destruct w; reflexivity.
Qed.

Lemma filter_audio_app (tr evs : list event) :
  Forall (fun ev => is_audio ev = false) evs ->
  List.filter is_audio (tr ++ evs) = List.filter is_audio tr.
Proof.
  intros Hevs. rewrite List.filter_app.
  replace (List.filter is_audio evs) with (@nil event); [apply app_nil_r |].
  induction Hevs as [| ev evs Hev _ IH]; [reflexivity |].
  cbn [List.filter]. rewrite Hev. exact IH.
Qed.

(** C5, as the code has it.  When the identifier is unknown at the
    lookup, the connection is closed at once with code 4004 and reason
    "Session not found", nothing is sent and nothing is registered.  When
    it names a session that is no longer active, no audio buffer is
    delivered either, but the connection is not closed with that code:
    the "completed" message is sent and the cleanup runs. *)
Theorem stream_without_audio (fuel ws : nat) (id : string) (w : World)
    (a a' : await_outcome) (rest : list await_outcome) :
  awaits w = a :: a' :: rest -> raised a = None -> raised a' = None ->
  (sessions (apply_env (others a) (manager w)) !! id = None \/
   exists (l : positive) (s : SessionData),
     sessions (apply_env (others a) (manager w)) !! id = Some l /\
     heap (apply_env (others a) (manager w)) !! l = Some s /\
     is_active s = false /\ clock w <> []) ->
  exists w' : World,
    websocket_audio_stream (S fuel) ws id w = (Ret tt, w') /\
    List.filter is_audio (trace w') = List.filter is_audio (trace w) /\
    (sessions (apply_env (others a) (manager w)) !! id = None ->
     trace w' = trace w ++ [EvAccept ws; EvClose ws 4004 "Session not found"] /\
     manager w' = apply_env (others a') (apply_env (others a) (manager w))) /\
    (is_Some (sessions (apply_env (others a) (manager w)) !! id) ->
     trace w'
     = trace w ++ [EvAccept ws;
                   EvSend ws (StatusMsg "completed" "Session finished")] /\
     manager w'
     = SessionManager.end_session id
         (apply_env (others a')
            (SessionManager.connect id ws (apply_env (others a) (manager w))))).
Proof.
  intros Ha Hr Hr' [Hid | (l & s & Hid & Hs & Hact & Hc)].
  - eexists. split; [apply (stream_unknown_run _ _ _ _ a a' rest); assumption |].
    cbn [trace manager]. split; [| split].
    + apply filter_audio_app. repeat constructor.
    + intros _. split; reflexivity.
    + intros [l Hl]. congruence.
  - destruct (clock w) as [| t ts] eqn:Hclock; [contradiction |].
    eexists. split;
      [apply (stream_inactive_run _ _ _ _ a a' rest l s t ts); assumption |].
    cbn [trace manager]. split; [| split].
    + apply filter_audio_app. repeat constructor.
    + intros Hnone. congruence.
    + intros _. split; reflexivity.
Qed.

(** C9, as the code has it.  For an identifier the registry does not
    know, the query raises a 404 "Session not found" and the stream is
    closed with code 4004; the terminate request succeeds with the
    "session_ended" acknowledgment and changes nothing. *)
Theorem unknown_session_responses (fuel ws : nat) (id : string) (w : World)
    (a a' : await_outcome) (rest : list await_outcome) :
  sessions (manager w) !! id = None ->
  awaits w = a :: a' :: rest -> raised a = None -> raised a' = None ->
  sessions (apply_env (others a) (manager w)) !! id = None ->
  get_session_info id w = (Raise (HTTPException 404 "Session not found"), w) /\
  websocket_audio_stream fuel ws id w
  = (Ret tt,
     mkWorld (apply_env (others a') (apply_env (others a) (manager w)))
             (trace w ++ [EvAccept ws; EvClose ws 4004 "Session not found"])
             (clock w) rest) /\
  end_session id w = (Ret (EndResponse "session_ended" id), w).
Proof.
  intros Hid Ha Hr Hr' Hid'. split; [| split].
  - apply get_session_info_unknown, Hid.
  - apply stream_unknown_run; assumption.
  - apply end_session_route_unknown, Hid.
Qed.

(** C8, as the code has it.  Ending a session, through the terminate
    request or through the method the stream's cleanup calls, keeps its
    entry in the registry: a later lookup finds the same object, now
    inactive, and the transport registration is gone. *)
Theorem end_session_keeps_entry (id : string) (w : World) (l : positive)
    (s : SessionData) :
  sessions (manager w) !! id = Some l -> heap (manager w) !! l = Some s ->
  exists w' : World,
    end_session id w = (Ret (EndResponse "session_ended" id), w') /\
    manager w' = SessionManager.end_session id (manager w) /\
    SessionManager.get_session id (manager w') = Some l /\
    (exists s' : SessionData,
       heap (manager w') !! l = Some s' /\ is_active s' = false /\
       config s' = config s) /\
    active_connections (manager w') !! id = None.
Proof.
  intros Hl Hs. eexists. split; [apply end_session_route_run |].
  cbn [manager]. split; [reflexivity |].
  destruct (end_session_registered id (manager w) l s Hl Hs) as (Hsess & Hheap & Hconn).
  unfold SessionManager.get_session. rewrite Hsess.
  split; [exact Hl |]. split; [| exact Hconn].
  exists (SessionManager.deactivate s). repeat split. exact Hheap.
Qed.

End Lookup.

(** ** Session identifiers *)

Section Identifiers.
Context `{PyRuntime}.

(** C10.  The identifier [create_session] returns is
    [session_<int(time)>_<hash(str(config)) % 10000>], whatever the
    registry holds; two calls in the same second with the same
    configuration return the same identifier, and after the second call
    the registry has one entry for it, referring to the second session
    object: the first one is no longer reachable through it. *)
Theorem create_session_same_second (c : BinauralConfig) (t1 t2 d1 d2 : R)
    (m : Manager) :
  py_int t1 = py_int t2 ->
  let r1 := SessionManager.create_session c t1 d1 m in
  let r2 := SessionManager.create_session c t2 d2 (snd r1) in
  fst r1 = "session_" ++ pretty (py_int t1) ++ "_"
                      ++ pretty (py_hash (config_str c) mod 10000) /\
  (forall (m' : Manager) (d' : R),
     fst (SessionManager.create_session c t2 d' m') = fst r1) /\
  fst r2 = fst r1 /\
  exists l1 l2 : positive,
    l1 <> l2 /\
    sessions (snd r1) !! fst r1 = Some l1 /\
    heap (snd r2) !! l1 = Some (mkSession (fst r1) c d1 true) /\
    heap (snd r2) !! l2 = Some (mkSession (fst r1) c d2 true) /\
    sessions (snd r2) = <[fst r1 := l2]> (sessions m).
Proof.
  intros Ht r1 r2. subst r1 r2.
  cbn [SessionManager.create_session fst snd sessions heap].
  rewrite <- Ht.
  split; [reflexivity |]. split; [reflexivity |]. split; [reflexivity |].
  set (l1 := fresh (dom (heap m))).
  set (s1 := mkSession _ c d1 true).
  set (l2 := fresh (dom (<[l1 := s1]> (heap m)))).
  assert (Hne : l1 <> l2).
  { intros Heq. apply (is_fresh (dom (<[l1 := s1]> (heap m)))).
    fold l2. rewrite <- Heq. apply elem_of_dom. rewrite lookup_insert_eq. eauto. }
  exists l1, l2. split; [exact Hne |].
  split; [apply lookup_insert_eq |].
  split; [rewrite lookup_insert_ne by congruence; apply lookup_insert_eq |].
  split; [apply lookup_insert_eq |].
  apply insert_insert_eq.
Qed.

End Identifiers.

(** ** The generate route *)

Section Generate.
Context `{PyRuntime}.

Local Open Scope R_scope.

(** A valid configuration within the limit: the test buffer is generated,
    the session is created and registered. *)
Lemma generate_beats_accepts (c : BinauralConfig) (w : World)
    (t0 t1 t2 : R) (rest : list R) :
  valid_config c ->
  carrier_freq c + beat_freq c <= 1000 ->
  clock w = t0 :: t1 :: t2 :: rest ->
  generate_beats c w
  = (Ret (GenerateResponse
            (fst (SessionManager.create_session c t1 t2 (manager w))) c "ready"
            (if Rlt_dec (carrier_freq c) 500 then "high" else "medium")),
     mkWorld (snd (SessionManager.create_session c t1 t2 (manager w)))
             (trace w) rest (awaits w)).
Proof.
  intros (_ & _ & Hw & _ & _) Hsum Hc.
  destruct (buffer_waveform (carrier_freq c) (waveform c) Hw) as (l & Hl & _).
  destruct (buffer_waveform (carrier_freq c + beat_freq c) (waveform c) Hw)
    as (r & Hr & _).
  unfold generate_beats, try_except. unfold bind at 1.
  destruct (Rgt_dec _ _) as [Hgt | _]; [lra |].
  unfold ret at 1. unfold bind at 1.
  rewrite (generate_binaural_beats_run c w l r t0 (t1 :: t2 :: rest) Hl Hr Hc).
  unfold bind at 1, create_session.
  unfold bind at 1. erewrite time_time_run by reflexivity.
  unfold bind at 1. erewrite time_time_run by reflexivity.
  reflexivity.
Qed.

(** C1, on the code.  A configuration whose frequencies add up to more
    than 1000 is rejected without touching the registry, but the 400
    raised for it is caught by the handler's own [except Exception] and
    replaced: the caller sees a 500. *)
Theorem generate_beats_over_limit (c : BinauralConfig) (w : World) :
  valid_config c ->
  carrier_freq c + beat_freq c > 1000 ->
  generate_beats c w
  = (Raise (HTTPException 500
              (exn_str (HTTPException 400 "Combined frequency exceeds maximum limit"))),
     w).
Proof.
  intros _ Hsum. unfold generate_beats, try_except, bind.
  destruct (Rgt_dec _ _); [reflexivity | contradiction].
Qed.

End Generate.

(** ** The claims on the scenario *)

Section ScenarioClaims.
Local Open Scope R_scope.
Local Open Scope list_scope.

#[local] Existing Instance example_runtime.

Lemma stream_without_audio_witness :
  exists w' : World,
    websocket_audio_stream 1 7 "nope" example_world = (Ret tt, w') /\
    List.filter is_audio (trace w') = List.filter is_audio (trace example_world) /\
    (sessions (apply_env (others quiet) (manager example_world)) !! "nope" = None ->
     trace w' = trace example_world
                ++ [EvAccept 7; EvClose 7 4004 "Session not found"] /\
     manager w'
     = apply_env (others quiet) (apply_env (others quiet) (manager example_world))) /\
    (is_Some (sessions (apply_env (others quiet) (manager example_world)) !! "nope") ->
     trace w'
     = trace example_world
       ++ [EvAccept 7; EvSend 7 (StatusMsg "completed" "Session finished")] /\
     manager w'
     = SessionManager.end_session "nope"
         (apply_env (others quiet)
            (SessionManager.connect "nope" 7
               (apply_env (others quiet) (manager example_world))))).
Proof.
  apply (stream_without_audio 0 7 "nope" example_world quiet quiet []).
  - reflexivity.
  - reflexivity.
  - reflexivity.
  - left. reflexivity.
Defined.

(** C5 as stated fails for a session that is registered but inactive:
    its stream is accepted and answered with "completed"; no close with
    the not-found code happens. *)
Lemma stream_inactive_counterexample :
  sessions (manager inactive_world) !! "s" = Some 1%positive /\
  heap (manager inactive_world) !! 1%positive
  = Some (mkSession "s" example_config 0 false) /\
  trace (snd (websocket_audio_stream 1 7 "s" inactive_world))
  = [EvAccept 7; EvSend 7 (StatusMsg "completed" "Session finished")] /\
  ~ In (EvClose 7 4004 "Session not found")
       (trace (snd (websocket_audio_stream 1 7 "s" inactive_world))).
Proof.
  assert (Hrun := stream_inactive_run 0 7 "s" inactive_world quiet quiet []
                    1%positive (mkSession "s" example_config 0 false) 0 []
                    eq_refl eq_refl eq_refl eq_refl eq_refl eq_refl eq_refl).
  rewrite Hrun. cbn [snd trace inactive_world app].
  split; [reflexivity |]. split; [reflexivity |]. split; [reflexivity |].
  intros [Hin | [Hin | []]]; discriminate.
Qed.

Lemma unknown_session_responses_witness :
  get_session_info "nope" example_world
  = (Raise (HTTPException 404 "Session not found"), example_world) /\
  websocket_audio_stream 1 7 "nope" example_world
  = (Ret tt,
     mkWorld (apply_env (others quiet)
                (apply_env (others quiet) (manager example_world)))
             (trace example_world
              ++ [EvAccept 7; EvClose 7 4004 "Session not found"])
             (clock example_world) []) /\
  end_session "nope" example_world
  = (Ret (EndResponse "session_ended" "nope"), example_world).
Proof.
  apply (unknown_session_responses 1 7 "nope" example_world quiet quiet []);
    reflexivity.
Defined.

(** C9 as stated fails for the terminate request: on a registry that
    does not know the identifier it returns the acknowledgment, not an
    error. *)
Lemma terminate_unknown_counterexample :
  sessions (manager example_world) !! "nope" = None /\
  end_session "nope" example_world
  = (Ret (EndResponse "session_ended" "nope"), example_world) /\
  fst (end_session "nope" example_world)
  <> Raise (HTTPException 404 "Session not found").
Proof.
  split; [reflexivity |]. split; [reflexivity |].
  cbn. discriminate.
Qed.

Lemma end_session_keeps_entry_witness :
  exists w' : World,
    end_session "s" stream_world = (Ret (EndResponse "session_ended" "s"), w') /\
    manager w' = SessionManager.end_session "s" (manager stream_world) /\
    SessionManager.get_session "s" (manager w') = Some 1%positive /\
    (exists s' : SessionData,
       heap (manager w') !! 1%positive = Some s' /\ is_active s' = false /\
       config s' = config (mkSession "s" example_config 0 true)) /\
    active_connections (manager w') !! "s" = None.
Proof.
  apply (end_session_keeps_entry "s" stream_world 1%positive
           (mkSession "s" example_config 0 true)).
  - reflexivity.
  - reflexivity.
Defined.

(** C8 as stated fails: after the terminate request the lookup of the
    identifier still finds the session. *)
Lemma end_session_lookup_counterexample :
  SessionManager.get_session "s" (manager stream_world) = Some 1%positive /\
  SessionManager.get_session "s"
    (manager (snd (end_session "s" stream_world))) = Some 1%positive /\
  SessionManager.get_session "s"
    (manager (snd (end_session "s" stream_world))) <> None.
Proof.
  split; [reflexivity |].
  assert (Hget : SessionManager.get_session "s"
                   (manager (snd (end_session "s" stream_world)))
                 = Some 1%positive) by reflexivity.
  split; [exact Hget |]. rewrite Hget. discriminate.
Qed.

Lemma same_second : py_int (1002 / 10) = py_int (1007 / 10).
Proof.
  rewrite !py_int_nonneg by lra.
  rewrite (Int_part_between (1002 / 10) 100), (Int_part_between (1007 / 10) 100);
    [reflexivity | lra | lra].
Qed.

Lemma create_session_same_second_witness :
  let r1 := SessionManager.create_session example_config (1002 / 10) 0
              SessionManager.init in
  let r2 := SessionManager.create_session example_config (1007 / 10) 1 (snd r1) in
  fst r1 = ("session_" ++ pretty (py_int (1002 / 10)) ++ "_"
              ++ pretty (py_hash (config_str example_config) mod 10000))%string /\
  (forall (m' : Manager) (d' : R),
     fst (SessionManager.create_session example_config (1007 / 10) d' m') = fst r1) /\
  fst r2 = fst r1 /\
  exists l1 l2 : positive,
    l1 <> l2 /\
    sessions (snd r1) !! fst r1 = Some l1 /\
    heap (snd r2) !! l1 = Some (mkSession (fst r1) example_config 0 true) /\
    heap (snd r2) !! l2 = Some (mkSession (fst r1) example_config 1 true) /\
    sessions (snd r2) = <[fst r1 := l2]> (sessions SessionManager.init).
Proof.
  apply (create_session_same_second example_config (1002 / 10) (1007 / 10) 0 1
           SessionManager.init).
  exact same_second.
Defined.

Lemma over_limit_config_valid : valid_config over_limit_config.
Proof.
  unfold valid_config, over_limit_config, supported_waveform. cbn.
  repeat split; try lra; try lia. left. reflexivity.
Qed.

Lemma generate_beats_over_limit_witness :
  valid_config over_limit_config /\
  carrier_freq over_limit_config + beat_freq over_limit_config > 1000 /\
  generate_beats over_limit_config example_world
  = (Raise (HTTPException 500
              (exn_str (HTTPException 400 "Combined frequency exceeds maximum limit"))),
     example_world).
Proof.
  assert (Hsum : carrier_freq over_limit_config + beat_freq over_limit_config > 1000)
    by (cbn; lra).
  split; [exact over_limit_config_valid |]. split; [exact Hsum |].
  apply (generate_beats_over_limit over_limit_config example_world
           over_limit_config_valid Hsum).
Defined.

End ScenarioClaims.

(** * Further properties *)

(** ** Amplitudes and edge cases of the synthesizer *)

Section WaveformRange.
Local Open Scope R_scope.
Import BinauralGenerator.

Lemma Int_part_bounds (x : R) : IZR (Int_part x) <= x < IZR (Int_part x) + 1.
Proof. destruct (base_Int_part x) as [Hle Hgt]. lra. Qed.

Lemma np_sign_values (x : R) : np_sign x = -1 \/ np_sign x = 0 \/ np_sign x = 1.
Proof.
  unfold np_sign. destruct (Rlt_dec x 0); [left; reflexivity |].
  destruct (Rlt_dec 0 x); [right; right | right; left]; reflexivity.
Qed.

Lemma spec_sample_range (w : string) (f t : R) : -1 <= spec_sample w f t <= 1.
Proof.
  unfold spec_sample.
  destruct (String.eqb w "sine"); [destruct (SIN_bound (2 * PI * f * t)); lra |].
  destruct (String.eqb w "square").
  { destruct (np_sign_values (sin (2 * PI * f * t))) as [-> | [-> | ->]]; lra. }
  pose proof (Int_part_bounds (/ 2 + t * f)) as Hfl.
  destruct (String.eqb w "sawtooth"); [lra |].
  destruct (String.eqb w "triangle"); [| lra].
  unfold Rabs. destruct (Rcase_abs _); lra.
Qed.

(** X1.  Whatever the frequency and the duration, every sample
    [generate_waveform] returns lies in [-1, 1]; for the sawtooth the
    value 1 is never reached. *)
Theorem generate_waveform_range (f d : R) (w : string) (l : list R) :
  generate_waveform f d w = Ok l ->
  Forall (fun x => -1 <= x <= 1 /\ (w = "sawtooth" -> x < 1)) l.
Proof.
  unfold generate_waveform. destruct (linspace 0 d _) as [t | e]; [| discriminate].
  pose proof (fun t => Int_part_bounds (/ 2 + t * f)) as Hfl.
  destruct (String.eqb_spec w "sine") as [-> | Hsine].
  { intros [= <-]. apply List.Forall_forall. intros x Hin.
    apply in_map_iff in Hin as (u & <- & _).
    split; [destruct (SIN_bound (2 * PI * f * u)); lra | discriminate]. }
  destruct (String.eqb_spec w "square") as [-> | Hsquare].
  { intros [= <-]. apply List.Forall_forall. intros x Hin.
    apply in_map_iff in Hin as (u & <- & _).
    split; [| discriminate].
    destruct (np_sign_values (sin (2 * PI * f * u))) as [-> | [-> | ->]]; lra. }
  destruct (String.eqb_spec w "sawtooth") as [-> | Hsaw].
  { intros [= <-]. apply List.Forall_forall. intros x Hin.
    apply in_map_iff in Hin as (u & <- & _).
    unfold np_floor. specialize (Hfl u). split; [lra | intros _; lra]. }
  destruct (String.eqb_spec w "triangle") as [-> | Htri]; [| discriminate].
  intros [= <-]. apply List.Forall_forall. intros x Hin.
  apply in_map_iff in Hin as (u & <- & _).
  unfold np_floor. specialize (Hfl u). split; [| discriminate].
  unfold Rabs. destruct (Rcase_abs _); lra.
Qed.

Lemma one_second_samples :
  Int_part (1 * IZR SAMPLE_RATE) = 44100%Z.
Proof. rewrite Rmult_1_l. apply Int_part_IZR. Qed.

Lemma generate_waveform_range_witness :
  exists l : list R,
    generate_waveform 440 1 "sawtooth" = Ok l /\
    Z.of_nat (length l) = 44100%Z /\
    Forall (fun x => -1 <= x <= 1 /\ ("sawtooth" = "sawtooth" -> x < 1)) l.
Proof.
  eexists. split; [| split].
  - apply generate_waveform_supported; [right; right; left; reflexivity | lra].
  - rewrite length_map, length_sample_times, one_second_samples. apply Z2Nat.id. lia.
  - apply (generate_waveform_range 440 1 "sawtooth").
    apply generate_waveform_supported; [right; right; left; reflexivity | lra].
Defined.

(** X2.  A square wave takes no other values than -1, 0 and 1. *)
Theorem square_wave_values (f d : R) (l : list R) :
  generate_waveform f d "square" = Ok l ->
  Forall (fun x => x = -1 \/ x = 0 \/ x = 1) l.
Proof.
  unfold generate_waveform. destruct (linspace 0 d _) as [t | e]; [| discriminate].
  cbn [String.eqb Ascii.eqb Bool.eqb].
  intros [= <-]. apply List.Forall_forall. intros x Hin.
  apply in_map_iff in Hin as (u & <- & _). apply np_sign_values.
Qed.

Lemma square_wave_values_witness :
  exists l : list R,
    generate_waveform 440 1 "square" = Ok l /\
    Z.of_nat (length l) = 44100%Z /\
    Forall (fun x => x = -1 \/ x = 0 \/ x = 1) l.
Proof.
  eexists. split; [| split].
  - apply generate_waveform_supported; [right; left; reflexivity | lra].
  - rewrite length_map, length_sample_times, one_second_samples. apply Z2Nat.id. lia.
  - apply (square_wave_values 440 1).
    apply generate_waveform_supported; [right; left; reflexivity | lra].
Defined.

(** X3.  Every waveform starts at phase zero: when at least one sample is
    produced, the first one is 0 for the sine, the square (the sign of 0 is
    0, not 1) and the sawtooth, and -1 for the triangle. *)
Theorem generate_waveform_first_sample (f d : R) (w : string) :
  supported_waveform w -> 1 <= d * IZR SAMPLE_RATE ->
  exists l : list R,
    generate_waveform f d w = Ok l /\
    nth_error l 0 = Some (if String.eqb w "triangle" then -1 else 0).
Proof.
  intros Hw Hd.
  assert (Hd0 : 0 <= d).
  { destruct (Rle_dec 0 d) as [Hle | Hneg]; [exact Hle |].
    assert (d * IZR SAMPLE_RATE <= 0); [| lra].
    unfold SAMPLE_RATE. nra. }
  assert (HN : (0 < Z.to_nat (Int_part (d * IZR SAMPLE_RATE)))%nat).
  { pose proof (Int_part_bounds (d * IZR SAMPLE_RATE)) as [_ Hup].
    assert (Hlt : IZR 0 < IZR (Int_part (d * IZR SAMPLE_RATE))).
    { apply Rnot_le_lt. intros Hle.
      apply le_IZR in Hle.
      assert (IZR (Int_part (d * IZR SAMPLE_RATE)) <= 0) by (apply IZR_le; lia).
      lra. }
    apply lt_IZR in Hlt. lia. }
  eexists. split; [apply generate_waveform_supported; assumption |].
  rewrite nth_error_map, nth_sample_times by exact HN.
  unfold option_map. f_equal.
  replace (INR 0 * (d / IZR (Int_part (d * IZR SAMPLE_RATE)))) with 0
    by (cbn [INR]; ring).
  unfold spec_sample.
  replace (2 * PI * f * 0) with 0 by ring.
  replace (/ 2 + 0 * f) with (/ 2) by ring.
  rewrite sin_0, (Int_part_between (/ 2) 0) by lra.
  assert (Hsign : np_sign 0 = 0).
  { unfold np_sign. destruct (Rlt_dec 0 0); [lra | reflexivity]. }
  rewrite Hsign.
  destruct Hw as [-> | [-> | [-> | ->]]]; cbn [String.eqb Ascii.eqb Bool.eqb].
  - reflexivity.
  - reflexivity.
  - ring.
  - rewrite Rabs_right by lra. ring.
Qed.

Lemma generate_waveform_first_sample_witness :
  exists l : list R,
    generate_waveform 440 1 "square" = Ok l /\
    nth_error l 0 = Some (if String.eqb "square" "triangle" then -1 else 0).
Proof.
  apply (generate_waveform_first_sample 440 1 "square").
  - right. left. reflexivity.
  - unfold SAMPLE_RATE. lra.
Defined.

Lemma py_int_small (x : R) : -1 < x < 1 -> py_int x = 0%Z.
Proof.
  intros Hx. unfold py_int. destruct (Rle_dec 0 x).
  - apply Int_part_between. lra.
  - rewrite (Int_part_between (- x) 0) by lra. reflexivity.
Qed.

Lemma py_int_negative (x : R) : x <= -1 -> (py_int x < 0)%Z.
Proof.
  intros Hx. unfold py_int. destruct (Rle_dec 0 x); [lra |].
  pose proof (Int_part_bounds (- x)) as [_ Hup].
  assert (Hlt : IZR 0 < IZR (Int_part (- x))) by lra.
  apply lt_IZR in Hlt. lia.
Qed.

Lemma py_int_above (x : R) : -1 < x -> (0 <= py_int x)%Z.
Proof.
  intros Hx. destruct (Rle_dec 0 x) as [Hle | Hneg].
  - rewrite py_int_nonneg by exact Hle. apply Int_part_nonneg, Hle.
  - rewrite py_int_small by lra. lia.
Qed.

Lemma unsupported_eqb (w : string) :
  ~ supported_waveform w ->
  String.eqb w "sine" = false /\ String.eqb w "square" = false /\
  String.eqb w "sawtooth" = false /\ String.eqb w "triangle" = false.
Proof.
  intros Hw. unfold supported_waveform in Hw.
  repeat split; apply String.eqb_neq; intros ->; apply Hw; auto.
Qed.

Lemma generate_waveform_unsupported_error (f : R) (w : string) :
  ~ supported_waveform w ->
  generate_waveform f (IZR BUFFER_SIZE / IZR SAMPLE_RATE) w
  = Err (ValueError ("Unsupported waveform: " ++ w)).
Proof.
  intros Hw. unfold generate_waveform, linspace, sample_rate.
  rewrite buffer_sample_count. cbn [Z.ltb Z.compare BUFFER_SIZE].
  destruct (unsupported_eqb w Hw) as (-> & -> & -> & ->). reflexivity.
Qed.

(** X4.  An unsupported waveform kind is never defaulted: when the number
    of samples is not negative, [generate_waveform] raises the
    [ValueError] that names the kind. *)
Theorem generate_waveform_unsupported (f d : R) (w : string) :
  ~ supported_waveform w -> -1 < d * IZR SAMPLE_RATE ->
  generate_waveform f d w = Err (ValueError ("Unsupported waveform: " ++ w)).
Proof.
  intros Hw Hd. unfold generate_waveform, linspace, sample_rate.
  destruct (Z.ltb_spec (py_int (d * IZR SAMPLE_RATE)) 0) as [Hneg | _].
  { pose proof (py_int_above _ Hd). lia. }
  destruct (unsupported_eqb w Hw) as (-> & -> & -> & ->). reflexivity.
Qed.

Lemma generate_waveform_unsupported_witness :
  generate_waveform 440 1 "noise" = Err (ValueError ("Unsupported waveform: " ++ "noise")).
Proof.
  apply (generate_waveform_unsupported 440 1 "noise").
  - intros [H | [H | [H | H]]]; discriminate.
  - unfold SAMPLE_RATE. lra.
Defined.

(** X5.  The sample count is truncated towards zero and tested by
    [np.linspace]: a duration shorter than one sample period, negative ones
    included, gives an empty sequence, and a duration of minus one sample
    period or less raises a [ValueError], whatever the waveform kind. *)
Theorem generate_waveform_short_or_negative (f d : R) (w : string) :
  (supported_waveform w -> -1 < d * IZR SAMPLE_RATE < 1 ->
   generate_waveform f d w = Ok []) /\
  (d * IZR SAMPLE_RATE <= -1 ->
   exists msg : string, generate_waveform f d w = Err (ValueError msg)).
Proof.
  split.
  - intros Hw Hd. unfold generate_waveform, linspace, sample_rate.
    rewrite (py_int_small _ Hd). cbn [Z.ltb Z.compare Z.to_nat seq map].
    destruct Hw as [-> | [-> | [-> | ->]]]; reflexivity.
  - intros Hd. unfold generate_waveform, linspace, sample_rate.
    pose proof (py_int_negative _ Hd) as Hneg.
    destruct (Z.ltb_spec (py_int (d * IZR SAMPLE_RATE)) 0) as [_ | Hge]; [| lia].
    eexists. reflexivity.
Qed.

Lemma generate_waveform_short_or_negative_witness :
  generate_waveform 440 (- (1 / 88200)) "sine" = Ok [] /\
  exists msg : string, generate_waveform 440 (- 1) "sine" = Err (ValueError msg).
Proof.
  split.
  - apply (proj1 (generate_waveform_short_or_negative 440 (- (1 / 88200)) "sine")).
    + left. reflexivity.
    + unfold SAMPLE_RATE. lra.
  - apply (proj2 (generate_waveform_short_or_negative 440 (- 1) "sine")).
    unfold SAMPLE_RATE. lra.
Defined.

End WaveformRange.

(** ** Buffers *)

Section BufferRange.
Context `{PyRuntime}.
Local Open Scope R_scope.

Lemma scaled_range (v : R) (l : list R) :
  0 <= v ->
  Forall (fun x => -1 <= x <= 1) l ->
  Forall (fun x => - v <= x <= v) (map (fun x => x * v) l).
Proof.
  intros Hv Hl. apply List.Forall_forall. intros y Hin.
  apply in_map_iff in Hin as (x & <- & Hx).
  rewrite List.Forall_forall in Hl. specialize (Hl x Hx). nra.
Qed.

Lemma range_weaken (w : string) (l : list R) :
  Forall (fun x => -1 <= x <= 1 /\ (w = "sawtooth" -> x < 1)) l ->
  Forall (fun x => -1 <= x <= 1) l.
Proof.
  intros Hl. eapply List.Forall_impl; [| exact Hl]. intros x [Hx _]. exact Hx.
Qed.

Lemma waveform_unit_range (f d : R) (w : string) (l : list R) :
  BinauralGenerator.generate_waveform f d w = Ok l ->
  Forall (fun x => -1 <= x <= 1) l.
Proof.
  unfold BinauralGenerator.generate_waveform.
  destruct (BinauralGenerator.linspace 0 d _) as [t | e]; [| discriminate].
  assert (Hall : forall g : R -> R, (forall u, g u = spec_sample w f u) ->
                   Forall (fun x => -1 <= x <= 1) (map g t)).
  { intros g Hg. apply List.Forall_forall. intros y Hin.
    apply in_map_iff in Hin as (u & <- & _). rewrite Hg. apply spec_sample_range. }
  unfold spec_sample in Hall.
  destruct (String.eqb w "sine"); [intros [= <-]; apply Hall; reflexivity |].
  destruct (String.eqb w "square"); [intros [= <-]; apply Hall; reflexivity |].
  destruct (String.eqb w "sawtooth"); [intros [= <-]; apply Hall; reflexivity |].
  destruct (String.eqb w "triangle"); [intros [= <-]; apply Hall; reflexivity |].
  discriminate.
Qed.

(** X6.  A buffer never exceeds the configured volume: whenever
    [generate_binaural_beats] returns, every sample of both channels lies
    in [-volume, volume]. *)
Theorem generate_binaural_beats_amplitude (c : BinauralConfig) (w w' : World)
    (b : AudioBuffer) :
  0 <= volume c ->
  BinauralGenerator.generate_binaural_beats c w = (Ret b, w') ->
  Forall (fun x => - volume c <= x <= volume c) (left_channel b) /\
  Forall (fun x => - volume c <= x <= volume c) (right_channel b).
Proof.
  intros Hv Hrun.
  apply generate_binaural_beats_inv in Hrun
    as (l & r & t & rest & Hl & Hr & _ & -> & _).
  cbn [left_channel right_channel].
  split; apply scaled_range; try exact Hv; eapply waveform_unit_range; eassumption.
Qed.

(** X7.  For an unsupported waveform kind [generate_binaural_beats] raises
    the 500 "Audio generation failed" in place of the [ValueError], without
    reading the clock or touching anything else. *)
Theorem generate_binaural_beats_unsupported (c : BinauralConfig) (w : World) :
  ~ supported_waveform (waveform c) ->
  BinauralGenerator.generate_binaural_beats c w
  = (Raise (HTTPException 500 "Audio generation failed"), w).
Proof.
  intros Hw.
  unfold BinauralGenerator.generate_binaural_beats, try_except, bind.
  rewrite generate_waveform_unsupported_error; [reflexivity | exact Hw].
Qed.

End BufferRange.

(** ** More on the session registry *)

Section RegistryMore.
Context `{PyRuntime}.

Lemma deactivate_twice (s : SessionData) :
  SessionManager.deactivate (SessionManager.deactivate s) = SessionManager.deactivate s.
Proof. reflexivity. Qed.

Lemma end_session_connection_gone (id : string) (m : Manager) :
  is_Some (sessions m !! id) ->
  active_connections (SessionManager.end_session id m) !! id = None.
Proof.
  intros [l Hl]. unfold SessionManager.end_session. rewrite Hl.
  cbn [active_connections].
  destruct (active_connections m !! id) eqn:Hc; [apply lookup_delete_eq | exact Hc].
Qed.

(** X8.  Ending a session twice is the same as ending it once, whether
    the identifier is registered or not. *)
Theorem end_session_idempotent (id : string) (m : Manager) :
  SessionManager.end_session id (SessionManager.end_session id m)
  = SessionManager.end_session id m.
Proof.
  destruct (sessions m !! id) as [l |] eqn:Hl.
  - pose proof (end_session_connection_gone id m (ex_intro _ l Hl)) as Hgone.
    unfold SessionManager.end_session at 1.
    rewrite end_session_sessions, Hl, Hgone.
    unfold SessionManager.end_session. rewrite Hl. cbn [heap sessions active_connections].
    f_equal. apply map_eq. intros l'.
    destruct (decide (l = l')) as [<- | Hne].
    + rewrite !lookup_alter_eq. destruct (heap m !! l); reflexivity.
    + rewrite !lookup_alter_ne by exact Hne. reflexivity.
  - rewrite (end_session_unknown id m Hl). apply end_session_unknown, Hl.
Qed.

(** X9.  [end_session] touches nothing but the session it names: the
    registry entries stay as they are, the connections of other
    identifiers are kept, any object not registered under the identifier
    is unchanged, and no object changes in anything but its active flag,
    which is never set back to true. *)
Theorem end_session_frame (id : string) (m : Manager) :
  sessions (SessionManager.end_session id m) = sessions m /\
  (forall id' : string, id' <> id ->
     active_connections (SessionManager.end_session id m) !! id'
     = active_connections m !! id') /\
  (forall l : positive, sessions m !! id <> Some l ->
     heap (SessionManager.end_session id m) !! l = heap m !! l) /\
  (forall (l : positive) (s : SessionData), heap m !! l = Some s ->
     exists s' : SessionData,
       heap (SessionManager.end_session id m) !! l = Some s' /\
       session_id s' = session_id s /\ config s' = config s /\
       start_time s' = start_time s /\
       (is_active s' = true -> is_active s = true)).
Proof.
  split; [apply end_session_sessions |].
  unfold SessionManager.end_session.
  destruct (sessions m !! id) as [l0 |] eqn:Hl; cbn [heap active_connections].
  - split; [| split].
    + intros id' Hne.
      destruct (active_connections m !! id); [| reflexivity].
      apply lookup_delete_ne. congruence.
    + intros l Hl'. apply lookup_alter_ne. congruence.
    + intros l s Hs. destruct (decide (l0 = l)) as [<- | Hne].
      * exists (SessionManager.deactivate s). rewrite lookup_alter_eq, Hs.
        repeat split. discriminate.
      * exists s. rewrite lookup_alter_ne by exact Hne. repeat split; auto.
  - split; [reflexivity |]. split; [reflexivity |].
    intros l s Hs. exists s. repeat split; auto.
Qed.

(** X10.  [create_session] registers an object of its own: the lookup of
    the returned identifier finds a new active session with the given
    configuration and start time, every object that existed is unchanged,
    the entries of other identifiers and all connections are kept. *)
Theorem create_session_lookup (c : BinauralConfig) (now now_dt : R) (m : Manager) :
  let id := fst (SessionManager.create_session c now now_dt m) in
  let m' := snd (SessionManager.create_session c now now_dt m) in
  (exists l : positive,
     SessionManager.get_session id m' = Some l /\
     heap m !! l = None /\
     heap m' !! l = Some (mkSession id c now_dt true)) /\
  (forall (l : positive) (s : SessionData),
     heap m !! l = Some s -> heap m' !! l = Some s) /\
  (forall id' : string, id' <> id -> sessions m' !! id' = sessions m !! id') /\
  active_connections m' = active_connections m.
Proof.
  cbn [SessionManager.create_session fst snd SessionManager.get_session
       sessions heap active_connections].
  assert (Hfresh : heap m !! fresh (dom (heap m)) = None).
  { apply not_elem_of_dom, is_fresh. }
  split; [| split; [| split]].
  - eexists. split; [apply lookup_insert_eq |].
    split; [exact Hfresh | apply lookup_insert_eq].
  - intros l s Hs. rewrite lookup_insert_ne; [exact Hs |]. congruence.
  - intros id' Hne. apply lookup_insert_ne. congruence.
  - reflexivity.
Qed.

Lemma apply_op_object (op : env_op) (m : Manager) (l : positive) (s : SessionData) :
  heap m !! l = Some s ->
  exists s' : SessionData,
    heap (apply_op op m) !! l = Some s' /\
    session_id s' = session_id s /\ config s' = config s /\
    start_time s' = start_time s /\
    (is_active s = false -> is_active s' = false).
Proof.
  intros Hs. destruct op as [c now now_dt | id | id ws]; cbn [apply_op].
  - exists s. split; [| auto].
    cbn [SessionManager.create_session snd heap].
    rewrite lookup_insert_ne; [exact Hs |].
    intros Heq. pose proof (is_fresh (dom (heap m))) as Hfresh.
    rewrite Heq in Hfresh. apply Hfresh, elem_of_dom. eauto.
  - unfold SessionManager.end_session.
    destruct (sessions m !! id) as [l0 |]; [| exists s; auto].
    cbn [heap]. destruct (decide (l0 = l)) as [<- | Hne].
    + exists (SessionManager.deactivate s). rewrite lookup_alter_eq, Hs.
      repeat split.
    + exists s. rewrite lookup_alter_ne by exact Hne. auto.
  - exists s. auto.
Qed.

(** X11.  Whatever the other coroutines do, a session object keeps its
    identifier, its configuration and its start time, and once it is
    inactive it stays inactive. *)
Theorem session_immutable (ops : list env_op) (m : Manager) (l : positive)
    (s : SessionData) :
  heap m !! l = Some s ->
  exists s' : SessionData,
    heap (apply_env ops m) !! l = Some s' /\
    session_id s' = session_id s /\ config s' = config s /\
    start_time s' = start_time s /\
    (is_active s = false -> is_active s' = false).
Proof.
  revert m s. unfold apply_env.
  induction ops as [| op ops IH]; intros m s Hs; cbn [fold_left].
  - exists s. auto.
  - destruct (apply_op_object op m l s Hs) as (s1 & Hs1 & Hid & Hc & Ht & Hact).
    destruct (IH _ _ Hs1) as (s2 & Hs2 & Hid2 & Hc2 & Ht2 & Hact2).
    exists s2. split; [exact Hs2 |].
    repeat split; try congruence. auto.
Qed.

Lemma apply_op_sessions_dom (op : env_op) (m : Manager) :
  dom (sessions m) ⊆ dom (sessions (apply_op op m)).
Proof.
  destruct op as [c now now_dt | id | id ws]; cbn [apply_op].
  - cbn [SessionManager.create_session snd sessions]. apply dom_insert_subseteq.
  - rewrite end_session_sessions. reflexivity.
  - reflexivity.
Qed.

(** X12.  No step of any coroutine removes a session from the registry:
    every registered identifier stays registered, and the number of
    entries never goes down. *)
Theorem registry_never_shrinks (ops : list env_op) (m : Manager) :
  (forall id : string,
     is_Some (sessions m !! id) -> is_Some (sessions (apply_env ops m) !! id)) /\
  (total_sessions m <= total_sessions (apply_env ops m))%nat.
Proof.
  assert (Hdom : dom (sessions m) ⊆ dom (sessions (apply_env ops m))).
  { revert m. unfold apply_env.
    induction ops as [| op ops IH]; intros m; cbn [fold_left]; [reflexivity |].
    etrans; [apply apply_op_sessions_dom | apply IH]. }
  split.
  - intros id Hid. apply elem_of_dom, Hdom, elem_of_dom, Hid.
  - unfold total_sessions. rewrite <- !size_dom. apply subseteq_size, Hdom.
Qed.

End RegistryMore.

(** ** Identifiers, up to collisions *)

Section IdentifierText.
Context `{PyRuntime}.
Import Stdlib.Strings.Ascii.

Lemma append_empty (s : string) : "" ++ s = s.
Proof. reflexivity. Qed.

Lemma append_String (a : ascii) (s t : string) :
  String a s ++ t = String a (s ++ t).
Proof. reflexivity. Qed.

Lemma pretty_N_char_not_underscore (x : N) : pretty_N_char x <> "_"%char.
Proof. unfold pretty_N_char. repeat case_match; discriminate. Qed.

Lemma pretty_N_go_no_underscore (x : N) :
  forall s : string,
    Forall (fun a => a <> "_"%char) (list_ascii_of_string s) ->
    Forall (fun a => a <> "_"%char) (list_ascii_of_string (pretty_N_go x s)).
Proof.
  induction (N.lt_wf_0 x) as [x _ IH]. intros s Hs.
  destruct (decide (x = 0%N)) as [-> | Hx].
  - rewrite pretty_N_go_0. exact Hs.
  - rewrite pretty_N_go_step by lia. apply IH.
    + apply N.div_lt; lia.
    + cbn [list_ascii_of_string]. constructor; [apply pretty_N_char_not_underscore | exact Hs].
Qed.

Lemma pretty_Z_no_underscore (z : Z) :
  Forall (fun a => a <> "_"%char) (list_ascii_of_string (pretty z)).
Proof.
  assert (HN : forall p : positive,
             Forall (fun a => a <> "_"%char)
                    (list_ascii_of_string (pretty (N.pos p)))).
  { intros p. unfold pretty, pretty_N.
    destruct (decide (N.pos p = 0%N)); [discriminate |].
    apply pretty_N_go_no_underscore. constructor. }
  destruct z as [| p | p]; unfold pretty, pretty_Z.
  - repeat constructor. discriminate.
  - apply HN.
  - rewrite append_String, append_empty. cbn [list_ascii_of_string].
    constructor; [discriminate | apply HN].
Qed.

Lemma append_underscore_inj (s1 : string) :
  forall s2 t1 t2 : string,
    Forall (fun a => a <> "_"%char) (list_ascii_of_string s1) ->
    Forall (fun a => a <> "_"%char) (list_ascii_of_string s2) ->
    s1 ++ "_" ++ t1 = s2 ++ "_" ++ t2 -> s1 = s2 /\ t1 = t2.
Proof.
  induction s1 as [| a s1 IH]; intros [| b s2] t1 t2 H1 H2 Heq;
    cbn [list_ascii_of_string] in *.
  - rewrite !append_empty in Heq. split; [reflexivity |].
    rewrite !append_String, !append_empty in Heq. congruence.
  - exfalso. rewrite append_empty, !append_String in Heq.
    inversion H2 as [| ? ? Hb _]. apply Hb. congruence.
  - exfalso. rewrite (append_empty ("_" ++ t2)), !append_String in Heq.
    inversion H1 as [| ? ? Ha _]. apply Ha. congruence.
  - rewrite (append_String a), (append_String b) in Heq.
    inversion H1 as [| ? ? _ H1']. inversion H2 as [| ? ? _ H2']. subst.
    injection Heq as -> Htail.
    destruct (IH s2 t1 t2 H1' H2' Htail) as [-> ->].
    split; reflexivity.
Qed.

(** X13.  Two calls of [create_session] return the same identifier
    exactly when their clock readings fall in the same second and the
    hashes of their configurations agree modulo 10000, whatever the
    registries: in every other case the identifiers differ. *)
Theorem session_id_collision (c1 c2 : BinauralConfig) (t1 t2 d1 d2 : R)
    (m1 m2 : Manager) :
  fst (SessionManager.create_session c1 t1 d1 m1)
  = fst (SessionManager.create_session c2 t2 d2 m2)
  <-> py_int t1 = py_int t2 /\
      py_hash (config_str c1) mod 10000 = py_hash (config_str c2) mod 10000.
Proof.
  cbn [SessionManager.create_session fst]. split.
  - intros Heq. rewrite !append_String, !append_empty in Heq.
    injection Heq as Heq.
    apply append_underscore_inj in Heq as [Ha Hb];
      [| apply pretty_Z_no_underscore ..].
    split; [exact (pretty_Z_inj _ _ Ha) | exact (pretty_Z_inj _ _ Hb)].
  - intros [-> ->]. reflexivity.
Qed.

End IdentifierText.

(** ** Metrics, health and shutdown *)

Section MonitoringFacts.
Context `{PyRuntime}.

Lemma filter_length_mono {A : Type} (p q : A -> bool) (l : list A) :
  (forall x : A, In x l -> p x = true -> q x = true) ->
  (length (List.filter p l) <= length (List.filter q l))%nat.
Proof.
  induction l as [| x l IH]; intros Hpq; [reflexivity |].
  cbn [List.filter].
  assert (IH' := IH (fun y Hy => Hpq y (or_intror Hy))).
  destruct (p x) eqn:Hp.
  - rewrite (Hpq x (or_introl eq_refl) Hp). cbn [length]. lia.
  - destruct (q x); cbn [length]; lia.
Qed.

Lemma filter_none {A : Type} (p : A -> bool) (l : list A) :
  (forall x : A, In x l -> p x = false) -> List.filter p l = [].
Proof.
  induction l as [| x l IH]; intros Hp; [reflexivity |].
  cbn [List.filter]. rewrite (Hp x (or_introl eq_refl)).
  apply IH. intros y Hy. apply Hp. right. exact Hy.
Qed.

Lemma end_session_entry_active (id : string) (m : Manager) (e : string * positive) :
  entry_active (SessionManager.end_session id m) e = true -> entry_active m e = true.
Proof.
  unfold entry_active, SessionManager.end_session.
  destruct (sessions m !! id) as [l |]; [| auto]. cbn [heap].
  destruct (decide (l = e.2)) as [<- | Hne].
  - rewrite lookup_alter_eq. destruct (heap m !! l); cbn; [discriminate | auto].
  - rewrite lookup_alter_ne by exact Hne. auto.
Qed.

(** X14.  The active-session gauge never exceeds the session counter.
    Ending a session leaves the counter as it is, cannot raise the gauge,
    and lowers the connection gauge by one exactly when the identifier is
    registered and connected. *)
Theorem metrics_after_end_session (id : string) (m : Manager) :
  (active_sessions m <= total_sessions m)%nat /\
  total_sessions (SessionManager.end_session id m) = total_sessions m /\
  (active_sessions (SessionManager.end_session id m) <= active_sessions m)%nat /\
  websocket_connections (SessionManager.end_session id m)
  = match sessions m !! id, active_connections m !! id with
    | Some _, Some _ => pred (websocket_connections m)
    | _, _ => websocket_connections m
    end.
Proof.
  unfold active_sessions, total_sessions, websocket_connections.
  split; [| split; [| split]].
  - rewrite <- length_map_to_list. apply List.filter_length_le.
  - rewrite end_session_sessions. reflexivity.
  - rewrite end_session_sessions. apply filter_length_mono.
    intros e _. apply end_session_entry_active.
  - unfold SessionManager.end_session.
    destruct (sessions m !! id); [| reflexivity]. cbn [active_connections].
    destruct (active_connections m !! id) eqn:Hc; [| reflexivity].
    apply map_size_delete_Some. eauto.
Qed.

Lemma end_all_sessions (ids : list string) :
  forall m : Manager, sessions (end_all ids m) = sessions m.
Proof.
  unfold end_all. induction ids as [| id ids IH]; intros m; [reflexivity |].
  cbn [fold_left]. rewrite IH. apply end_session_sessions.
Qed.

(** X15.  The health route reports as [active_sessions] the number of
    entries of the registry: sessions that have been ended, even all of
    them, are still counted. *)
Theorem health_counts_ended_sessions (environment port : string)
    (startup_time : R) (ids : list string) (w : World) (t1 t2 : R) (rest : list R) :
  clock w = t1 :: t2 :: rest ->
  health_check environment port startup_time
    (mkWorld (end_all ids (manager w)) (trace w) (clock w) (awaits w))
  = (Ret (Healthy "healthy" t1 (total_sessions (manager w))
            (websocket_connections (end_all ids (manager w)))
            "1.0.0" environment port (t2 - startup_time)%R),
     mkWorld (end_all ids (manager w)) (trace w) rest (awaits w)).
Proof.
  intros Hc. unfold health_check, try_except.
  unfold bind at 1. erewrite time_time_run by (cbn [clock]; exact Hc).
  unfold bind at 1, get_manager. cbn [manager trace clock awaits].
  unfold bind at 1. erewrite time_time_run by reflexivity.
  cbn [manager trace clock awaits ret].
  rewrite end_all_sessions. reflexivity.
Qed.

Lemma end_session_keeps_cleaned (id id' : string) (m : Manager) :
  cleaned id m -> cleaned id (SessionManager.end_session id' m).
Proof.
  intros (l & s & Hl & Hs & Hact & Hc).
  unfold cleaned. rewrite end_session_sessions.
  unfold SessionManager.end_session.
  destruct (sessions m !! id') as [l' |] eqn:Hl'; [| exists l, s; auto].
  cbn [heap active_connections].
  assert (Hconn : (match active_connections m !! id' with
                   | Some _ => delete id' (active_connections m)
                   | None => active_connections m
                   end) !! id = None).
  { destruct (active_connections m !! id'); [| exact Hc].
    destruct (decide (id' = id)) as [-> | Hne];
      [apply lookup_delete_eq | rewrite lookup_delete_ne by exact Hne; exact Hc]. }
  destruct (decide (l' = l)) as [-> | Hne].
  - exists l, (SessionManager.deactivate s). rewrite lookup_alter_eq, Hs.
    repeat split; assumption.
  - exists l, s. rewrite lookup_alter_ne by exact Hne. repeat split; assumption.
Qed.

Lemma end_all_keeps_cleaned (id : string) (ids : list string) :
  forall m : Manager, cleaned id m -> cleaned id (end_all ids m).
Proof.
  unfold end_all. induction ids as [| id' ids IH]; intros m Hm; [exact Hm |].
  cbn [fold_left]. apply IH, end_session_keeps_cleaned, Hm.
Qed.

Lemma end_all_keeps_known (id : string) (ids : list string) :
  forall m : Manager, known id m -> known id (end_all ids m).
Proof.
  unfold end_all. induction ids as [| id' ids IH]; intros m Hm; [exact Hm |].
  cbn [fold_left]. apply IH. destruct Hm as [Hwf Hid].
  split; [apply end_session_wf, Hwf | rewrite end_session_sessions; exact Hid].
Qed.

Lemma end_all_cleans (id : string) (ids : list string) :
  forall m : Manager, In id ids -> known id m -> cleaned id (end_all ids m).
Proof.
  induction ids as [| id' ids IH]; intros m Hin Hm; [destruct Hin |].
  destruct (decide (id' = id)) as [-> | Hne].
  - unfold end_all. cbn [fold_left].
    apply (end_all_keeps_cleaned id ids), end_session_cleaned, Hm.
  - destruct Hin as [Heq | Hin]; [contradiction |].
    unfold end_all. cbn [fold_left]. apply (IH _ Hin).
    destruct Hm as [Hwf Hid].
    split; [apply end_session_wf, Hwf | rewrite end_session_sessions; exact Hid].
Qed.

(** X16.  Whatever the order in which the keys are listed, ending every
    registered session leaves every one of them registered, inactive and
    without connection, so that the active-session gauge reads 0; this is
    what [shutdown_event] does. *)
Theorem shutdown_ends_all (ids : list string) (w : World) :
  wf_manager (manager w) ->
  (forall id : string, is_Some (sessions (manager w) !! id) -> In id ids) ->
  (forall id : string,
     is_Some (sessions (manager w) !! id) ->
     cleaned id (end_all ids (manager w))) /\
  active_sessions (end_all ids (manager w)) = 0%nat /\
  exists w' : World,
    shutdown_event w = (Ret tt, w') /\
    trace w' = trace w /\
    sessions (manager w') = sessions (manager w) /\
    active_sessions (manager w') = 0%nat.
Proof.
  intros Hwf Hids.
  assert (Hclean : forall ids' : list string,
            (forall id, is_Some (sessions (manager w) !! id) -> In id ids') ->
            forall id, is_Some (sessions (manager w) !! id) ->
                       cleaned id (end_all ids' (manager w))).
  { intros ids' Hids' id Hid. apply end_all_cleans; [apply Hids', Hid |].
    split; assumption. }
  assert (Hzero : forall ids' : list string,
            (forall id, is_Some (sessions (manager w) !! id) -> In id ids') ->
            active_sessions (end_all ids' (manager w)) = 0%nat).
  { intros ids' Hids'. unfold active_sessions.
    rewrite filter_none; [reflexivity |].
    intros [id l] Hin. apply list_elem_of_In, elem_of_map_to_list in Hin.
    assert (Hid : is_Some (sessions (manager w) !! id)).
    { rewrite <- (end_all_sessions ids'). eauto. }
    destruct (Hclean ids' Hids' id Hid) as (l0 & s & Hl0 & Hs & Hact & _).
    assert (l0 = l) by congruence. subst l0.
    unfold entry_active. cbn [snd]. rewrite Hs. exact Hact. }
  assert (Hkeys : forall id, is_Some (sessions (manager w) !! id) ->
            In id (map fst (map_to_list (sessions (manager w))))).
  { intros id [l Hl]. apply in_map_iff. exists (id, l).
    split; [reflexivity |]. apply list_elem_of_In, elem_of_map_to_list, Hl. }
  split; [exact (Hclean ids Hids) |]. split; [exact (Hzero ids Hids) |].
  eexists. split; [reflexivity |]. cbn [trace manager].
  split; [reflexivity |]. split; [apply end_all_sessions |].
  exact (Hzero _ Hkeys).
Qed.

End MonitoringFacts.

(** ** The query and generate routes *)

Section RouteFacts.
Context `{PyRuntime}.
Local Open Scope R_scope.

Lemma get_session_info_known (id : string) (w : World) (l : positive)
    (s : SessionData) (t : R) (rest : list R) :
  sessions (manager w) !! id = Some l -> heap (manager w) !! l = Some s ->
  clock w = t :: rest ->
  get_session_info id w
  = (Ret (SessionInfo id (config s) (start_time s) (t - start_time s) (is_active s)
            (if (duration (config s) =? 0)%Z then 0
             else Rmin ((t - start_time s) / IZR (duration (config s))) 1)),
     mkWorld (manager w) (trace w) rest (awaits w)).
Proof.
  intros Hl Hs Hc. unfold get_session_info.
  unfold bind at 1, get_manager, SessionManager.get_session. rewrite Hl.
  unfold bind at 1. rewrite (time_time_run w t rest Hc). rewrite Hs. reflexivity.
Qed.

(** X17.  For a registered session of positive duration the query
    answers with the elapsed time over the duration, clamped: the progress
    is never above 1, is 1 from the moment the duration has elapsed, and is
    not negative as long as the clock is not before the start time. *)
Theorem get_session_info_progress (id : string) (w : World) (l : positive)
    (s : SessionData) (t : R) (rest : list R) :
  sessions (manager w) !! id = Some l -> heap (manager w) !! l = Some s ->
  clock w = t :: rest ->
  (0 < duration (config s))%Z ->
  exists p : R,
    get_session_info id w
    = (Ret (SessionInfo id (config s) (start_time s) (t - start_time s)
              (is_active s) p),
       mkWorld (manager w) (trace w) rest (awaits w)) /\
    p <= 1 /\
    (start_time s <= t -> 0 <= p) /\
    (IZR (duration (config s)) <= t - start_time s -> p = 1) /\
    (t - start_time s <= IZR (duration (config s)) ->
     p = (t - start_time s) / IZR (duration (config s))).
Proof.
  intros Hl Hs Hc Hd.
  assert (HD : 0 < IZR (duration (config s))) by (apply IZR_lt; exact Hd).
  eexists. split; [apply (get_session_info_known id w l s t rest Hl Hs Hc) |].
  destruct (Z.eqb_spec (duration (config s)) 0) as [Hz | _]; [lia |].
  set (D := IZR (duration (config s))) in *.
  set (e := t - start_time s).
  assert (Hdiv : forall x, x / D <= 1 <-> x <= D).
  { intros x. split; intros Hx.
    - apply (Rmult_le_compat_r D) in Hx; [| lra].
      unfold Rdiv in Hx. rewrite Rmult_assoc, Rinv_l in Hx; lra.
    - apply (Rmult_le_reg_r D); [exact HD |].
      unfold Rdiv. rewrite Rmult_assoc, Rinv_l; lra. }
  split; [apply Rmin_r |]. split; [| split].
  - intros Hstart. apply Rmin_glb; [| lra].
    apply Rle_mult_inv_pos; [unfold e; lra | exact HD].
  - intros Hover. apply Rmin_right.
    apply (Rmult_le_reg_r D); [exact HD |].
    unfold Rdiv. rewrite Rmult_assoc, Rinv_l; lra.
  - intros Hunder. apply Rmin_left, Hdiv, Hunder.
Qed.






(** X19.  A session the generate route has created can be queried at
    once: the identifier it returns is registered, and the query reports
    the session active, with the submitted configuration and the creation
    time as start time. *)
Theorem generate_then_query (c : BinauralConfig) (w : World)
    (t0 t1 t2 t3 : R) (rest : list R) :
  valid_config c ->
  carrier_freq c + beat_freq c <= 1000 ->
  clock w = t0 :: t1 :: t2 :: t3 :: rest ->
  exists (id quality : string) (w1 : World) (p : R),
    generate_beats c w = (Ret (GenerateResponse id c "ready" quality), w1) /\
    (quality = "high" <-> carrier_freq c < 500) /\
    trace w1 = trace w /\
    get_session_info id w1
    = (Ret (SessionInfo id c t2 (t3 - t2) true p),
       mkWorld (manager w1) (trace w1) rest (awaits w1)).
Proof.
  intros Hvalid Hsum Hc.
  rewrite (generate_beats_accepts c w t0 t1 t2 (t3 :: rest) Hvalid Hsum Hc).
  do 4 eexists. split; [reflexivity |]. split; [| split; [reflexivity |]].
  - destruct (Rlt_dec (carrier_freq c) 500); split; intros; try lra;
      try reflexivity; discriminate.
  - rewrite (get_session_info_known _ _ (fresh (dom (heap (manager w))))
               (mkSession (fst (SessionManager.create_session c t1 t2 (manager w)))
                          c t2 true) t3 rest);
      [reflexivity
      | cbn [manager SessionManager.create_session fst snd sessions];
        apply lookup_insert_eq
      | cbn [manager SessionManager.create_session fst snd heap];
        apply lookup_insert_eq
      | reflexivity].
Qed.

(** X20.  Every preset is a valid configuration within the combined
    limit, so the generate route accepts it, with quality "high". *)
Theorem presets_accepted (name : string) (c : BinauralConfig) (w : World)
    (t0 t1 t2 : R) (rest : list R) :
  In (name, c) PRESETS ->
  clock w = t0 :: t1 :: t2 :: rest ->
  valid_config c /\
  carrier_freq c + beat_freq c <= 1000 /\
  exists (id : string) (w' : World),
    generate_beats c w = (Ret (GenerateResponse id c "ready" "high"), w') /\
    is_Some (sessions (manager w') !! id).
Proof.
  intros Hin Hc.
  assert (Hfacts : valid_config c /\ carrier_freq c + beat_freq c <= 1000 /\
                   carrier_freq c < 500).
  { unfold PRESETS in Hin. cbn [In] in Hin.
    destruct Hin as [Hp | [Hp | [Hp | [Hp | [Hp | []]]]]];
      injection Hp as _ <-; unfold valid_config, supported_waveform; cbn;
      (repeat split; try lra; try lia; left; reflexivity). }
  destruct Hfacts as (Hvalid & Hsum & Hq).
  split; [exact Hvalid |]. split; [exact Hsum |].
  rewrite (generate_beats_accepts c w t0 t1 t2 rest Hvalid Hsum Hc).
  destruct (Rlt_dec (carrier_freq c) 500); [| lra].
  do 2 eexists. split; [reflexivity |].
  cbn [manager SessionManager.create_session fst snd sessions].
  rewrite lookup_insert_eq. eauto.
Qed.

End RouteFacts.

(** ** What the client of a stream receives *)

Section StreamFacts.
Context `{PyRuntime}.
Local Open Scope R_scope.
Local Open Scope list_scope.

Lemma buffer_waveform_samples (f : R) (w : string) (l : list R) :
  BinauralGenerator.generate_waveform f (IZR BUFFER_SIZE / IZR SAMPLE_RATE) w = Ok l ->
  l = map (spec_sample w f)
        (sample_times (IZR BUFFER_SIZE / IZR SAMPLE_RATE) BUFFER_SIZE).
Proof.
  unfold BinauralGenerator.generate_waveform, BinauralGenerator.sample_rate.
  rewrite buffer_sample_count, linspace_from_zero by (unfold BUFFER_SIZE; lia).
  unfold spec_sample.
  destruct (String.eqb w "sine"); [intros [= <-]; reflexivity |].
  destruct (String.eqb w "square"); [intros [= <-]; reflexivity |].
  destruct (String.eqb w "sawtooth"); [intros [= <-]; reflexivity |].
  destruct (String.eqb w "triangle"); [intros [= <-]; reflexivity |].
  discriminate.
Qed.

Lemma apply_env_config (ops : list env_op) :
  forall (m : Manager) (l : positive) (s : SessionData),
    heap m !! l = Some s ->
    exists s' : SessionData,
      heap (apply_env ops m) !! l = Some s' /\ config s' = config s.
Proof.
  unfold apply_env. induction ops as [| op ops IH]; intros m l s Hs; cbn [fold_left].
  - exists s. auto.
  - destruct (apply_op_object op m l s Hs) as (s1 & Hs1 & _ & Hc & _).
    destruct (IH _ l s1 Hs1) as (s2 & Hs2 & Hc2).
    exists s2. split; [exact Hs2 | congruence].
Qed.

(** The buffers of a run of the loop: all are the buffer of the session's
    configuration, and under a paced clock their number is bounded. *)
Lemma loop_spec_buffers (ws : nat) (l : positive) (start : R) (c : BinauralConfig)
    (w w' : World) :
  loop_spec ws l start w w' ->
  forall s : SessionData,
    heap (manager w) !! l = Some s -> config s = c ->
    exists stamps : list R,
      trace w' = trace w ++ paced ws (map (buffer_message c) stamps) /\
      forall K : R,
        0 <= K -> paced_clock (start + K) (clock w) ->
        stamps = [] \/
        K + (INR (length stamps) - 1) * (IZR BUFFER_SIZE / IZR SAMPLE_RATE)
        < IZR (duration c).
Proof.
  induction 1 as [w s0 Hs0 Hact | w s0 now rest Hs0 Hact Hc Hge
                 | w w' s0 now stamp rest a1 a2 aw lft rgt Hs0 Hact Hc Hlt Hl Hr
                     Ha Hr1 Hr2 _ IH]; intros s Hs Hcfg.
  - exists []. split; [symmetry; apply app_nil_r | auto].
  - exists []. split; [symmetry; apply app_nil_r | auto].
  - assert (s0 = s) by congruence. subst s0.
    destruct (apply_env_config (others a1) _ l s Hs) as (s1 & Hs1 & Hc1).
    destruct (apply_env_config (others a2) _ l s1 Hs1) as (s2 & Hs2 & Hc2).
    destruct (IH s2 Hs2 ltac:(congruence)) as (stamps & Htr & Hbound).
    exists (stamp :: stamps). split.
    + rewrite Htr. cbn [trace map paced flat_map].
      rewrite <- !app_assoc. cbn [app].
      apply buffer_waveform_samples in Hl, Hr. subst lft rgt c.
      reflexivity.
    + intros K HK Hpaced. right.
      rewrite Hc in Hpaced. cbn [paced_clock] in Hpaced.
      destruct Hpaced as [Hnow Hrest].
      subst c. cbn [length]. rewrite S_INR.
      assert (Hdt : 0 < IZR BUFFER_SIZE / IZR SAMPLE_RATE)
        by (unfold BUFFER_SIZE, SAMPLE_RATE; lra).
      set (dt := IZR BUFFER_SIZE / IZR SAMPLE_RATE) in *.
      destruct (Hbound (now - start + dt)) as [-> | Hlt'].
      * lra.
      * cbn [clock]. replace (start + (now - start + dt)) with (now + dt) by ring.
        exact Hrest.
      * cbn [length INR]. lra.
      * lra.
Qed.

Lemma stream_body_inv (fuel ws : nat) (l : positive) (w w' : World) :
  stream_body fuel ws l w = (Ret tt, w') ->
  exists (start : R) (rest : list R) (w1 : World),
    clock w = start :: rest /\
    loop_spec ws l start (mkWorld (manager w) (trace w) rest (awaits w)) w1 /\
    trace w' = trace w1 ++ [EvSend ws (StatusMsg "completed" "Session finished")].
Proof.
  intros Hrun. unfold stream_body in Hrun.
  unfold bind at 1, time_time in Hrun.
  destruct (clock w) as [| start rest] eqn:Hc; [discriminate |].
  unfold bind at 1 in Hrun.
  destruct (stream_loop fuel ws l start _) as [[[] | e |] w1] eqn:Hloop;
    try discriminate.
  apply stream_loop_sound in Hloop.
  unfold await in Hrun.
  destruct (awaits w1) as [| a aw]; [discriminate |].
  destruct (raised a); [discriminate |].
  injection Hrun as <-.
  exists start, rest, w1. repeat split; assumption.
Qed.


(** X22.  When every suspension lasts at least the buffer period, a
    stream that runs to its end has delivered fewer than
    [duration * 44100 / 1024 + 1] buffers. *)
Theorem stream_buffer_count (fuel ws : nat) (l : positive) (w w' : World)
    (s : SessionData) (start : R) (rest : list R) :
  stream_body fuel ws l w = (Ret tt, w') ->
  heap (manager w) !! l = Some s ->
  (0 <= duration (config s))%Z ->
  clock w = start :: rest ->
  paced_clock start rest ->
  exists bufs : list json_msg,
    trace w'
    = trace w ++ paced ws bufs
      ++ [EvSend ws (StatusMsg "completed" "Session finished")] /\
    INR (length bufs) < IZR (duration (config s)) * (44100 / 1024) + 1.
Proof.
  intros Hrun Hs Hd Hc Hpaced.
  apply stream_body_inv in Hrun as (start' & rest' & w1 & Hc' & Hloop & Htr).
  assert (start' = start /\ rest' = rest) as [-> ->] by (split; congruence).
  destruct (loop_spec_buffers ws l start (config s) _ _ Hloop s Hs eq_refl)
    as (stamps & Htr1 & Hbound).
  apply IZR_le in Hd.
  exists (map (buffer_message (config s)) stamps). split.
  - rewrite Htr, Htr1. cbn [trace]. rewrite <- app_assoc. reflexivity.
  - rewrite length_map.
    destruct (Hbound 0) as [-> | Hlt].
    + lra.
    + cbn [clock]. rewrite Rplus_0_r. exact Hpaced.
    + cbn [length INR]. lra.
    + unfold BUFFER_SIZE, SAMPLE_RATE in Hlt. lra.
Qed.

Lemma await_trace (ev : event) (w : World) :
  (fst (await ev w) = Ret tt /\ trace (snd (await ev w)) = trace w ++ [ev]) \/
  (fst (await ev w) <> Ret tt /\ trace (snd (await ev w)) = trace w).
Proof.
  unfold await. destruct (awaits w) as [| a rest]; [right; split; [discriminate | reflexivity] |].
  destruct (raised a); [right | left]; split; try reflexivity. discriminate.
Qed.

Section Emits.
Variable P : event -> Prop.

Lemma emits_nothing {A : Type} (c : M A) :
  (forall w : World, trace (snd (c w)) = trace w) -> emits_only P c.
Proof.
  intros Hc w. exists []. split; [rewrite app_nil_r; apply Hc | constructor].
Qed.

Lemma emits_ret {A : Type} (a : A) : emits_only P (ret a).
Proof. apply emits_nothing. reflexivity. Qed.

Lemma emits_raise {A : Type} (e : exn) : emits_only P (@raise A e).
Proof. apply emits_nothing. reflexivity. Qed.

Lemma emits_stuck {A : Type} : emits_only P (fun w => (@Stuck A, w)).
Proof. apply emits_nothing. reflexivity. Qed.

Lemma emits_time : emits_only P time_time.
Proof.
  apply emits_nothing. intros w. unfold time_time. destruct (clock w); reflexivity.
Qed.

Lemma emits_await (ev : event) : P ev -> emits_only P (await ev).
Proof.
  intros Hev w. destruct (await_trace ev w) as [[_ Ht] | [_ Ht]].
  - exists [ev]. split; [exact Ht | repeat constructor; exact Hev].
  - exists []. split; [rewrite app_nil_r; exact Ht | constructor].
Qed.

Lemma emits_bind {A B : Type} (c : M A) (k : A -> M B) :
  emits_only P c -> (forall a : A, emits_only P (k a)) -> emits_only P (bind c k).
Proof.
  intros Hc Hk w. unfold bind. destruct (Hc w) as (evs & Ht & Hall).
  destruct (c w) as [[a | e |] w1]; cbn [snd] in Ht |- *.
  - destruct (Hk a w1) as (evs' & Ht' & Hall').
    exists (evs ++ evs'). split; [rewrite Ht', Ht, app_assoc; reflexivity |].
    apply Forall_app; split; assumption.
  - exists evs. split; assumption.
  - exists evs. split; assumption.
Qed.

Lemma emits_try_except {A : Type} (c : M A) (h : exn -> M A) :
  emits_only P c -> (forall e : exn, emits_only P (h e)) ->
  emits_only P (try_except c h).
Proof.
  intros Hc Hh w. unfold try_except. destruct (Hc w) as (evs & Ht & Hall).
  destruct (c w) as [[a | e |] w1]; cbn [snd] in Ht |- *.
  - exists evs. split; assumption.
  - destruct (Hh e w1) as (evs' & Ht' & Hall').
    exists (evs ++ evs'). split; [rewrite Ht', Ht, app_assoc; reflexivity |].
    apply Forall_app; split; assumption.
  - exists evs. split; assumption.
Qed.

Lemma emits_generate (c : BinauralConfig) :
  emits_only P (BinauralGenerator.generate_binaural_beats c).
Proof.
  unfold BinauralGenerator.generate_binaural_beats.
  apply emits_try_except.
  - apply emits_bind; [destruct (BinauralGenerator.generate_waveform _ _ _);
                       [apply emits_ret | apply emits_raise] | intros l].
    apply emits_bind; [destruct (BinauralGenerator.generate_waveform _ _ _);
                       [apply emits_ret | apply emits_raise] | intros r].
    apply emits_bind; [apply emits_time | intros t]. apply emits_ret.
  - intros e. destruct (is_Exception e); apply emits_raise.
Qed.

End Emits.

(** The loop sends buffers and suspends: it never sends a terminal
    message, however it ends. *)
Lemma stream_loop_trace (ws : nat) (l : positive) (start : R) (fuel : nat) :
  emits_only (fun ev => is_status ev = false) (stream_loop fuel ws l start).
Proof.
  induction fuel as [| fuel IH]; cbn [stream_loop]; [apply emits_stuck |].
  apply emits_bind; [apply emits_nothing; reflexivity | intros m].
  destruct (heap m !! l) as [s |]; [| apply emits_stuck].
  destruct (is_active s); [| apply emits_ret].
  apply emits_bind; [apply emits_time | intros now].
  destruct (Rlt_dec _ _); [| apply emits_ret].
  apply emits_bind; [apply emits_generate | intros b].
  apply emits_bind; [apply emits_await; reflexivity | intros _].
  apply emits_bind; [apply emits_await; reflexivity | intros _].
  exact IH.
Qed.

Lemma stream_body_unfold (fuel ws : nat) (l : positive) (w : World) :
  stream_body fuel ws l w
  = match clock w with
    | [] => (Stuck, w)
    | start :: rest =>
      match stream_loop fuel ws l start
              (mkWorld (manager w) (trace w) rest (awaits w)) with
      | (Ret _, w1) =>
        await (EvSend ws (StatusMsg "completed" "Session finished")) w1
      | (Raise e, w1) => (Raise e, w1)
      | (Stuck, w1) => (Stuck, w1)
      end
    end.
Proof.
  unfold stream_body, bind, time_time. destruct (clock w); reflexivity.
Qed.

(** The body of the [try]: a terminal message is sent only as the last
    thing, and then the body returns normally. *)
Lemma stream_body_trace (fuel ws : nat) (l : positive) (w : World) :
  exists evs : list event,
    trace (snd (stream_body fuel ws l w)) = trace w ++ evs /\
    (Forall (fun ev => is_status ev = false) evs \/
     fst (stream_body fuel ws l w) = Ret tt /\
     exists pre : list event,
       evs = pre ++ [EvSend ws (StatusMsg "completed" "Session finished")] /\
       Forall (fun ev => is_status ev = false) pre).
Proof.
  rewrite (stream_body_unfold fuel ws l w).
  destruct (clock w) as [| start rest].
  { exists []. split; [symmetry; apply app_nil_r | left; constructor]. }
  destruct (stream_loop_trace ws l start fuel
              (mkWorld (manager w) (trace w) rest (awaits w))) as (evs & Ht & Hall).
  destruct (stream_loop fuel ws l start _) as [[[] | e |] w1];
    cbn [snd trace] in Ht |- *.
  - destruct (await_trace (EvSend ws (StatusMsg "completed" "Session finished")) w1)
      as [[Hr Ht'] | [_ Ht']].
    + exists (evs ++ [EvSend ws (StatusMsg "completed" "Session finished")]).
      split; [rewrite Ht', Ht, app_assoc; reflexivity |].
      right. split; [exact Hr |]. exists evs. split; [reflexivity | exact Hall].
    + exists evs. split; [rewrite Ht', Ht; reflexivity | left; exact Hall].
  - exists evs. split; [exact Ht | left; exact Hall].
  - exists evs. split; [exact Ht | left; exact Hall].
Qed.

Lemma stream_try_trace (fuel ws : nat) (l : positive) (w : World) :
  exists evs : list event,
    trace (snd (try_except (stream_body fuel ws l) (stream_except ws) w))
    = trace w ++ evs /\
    (Forall (fun ev => is_status ev = false) evs \/
     exists (pre : list event) (st : event),
       evs = pre ++ [st] /\
       Forall (fun ev => is_status ev = false) pre /\ is_status st = true).
Proof.
  unfold try_except.
  destruct (stream_body_trace fuel ws l w) as (evs & Ht & Hcase).
  destruct (stream_body fuel ws l w) as [[[] | e |] w1]; cbn [fst snd] in Ht, Hcase |- *.
  - exists evs. split; [exact Ht |].
    destruct Hcase as [Hall | (_ & pre & -> & Hpre)]; [left; exact Hall |].
    right. exists pre, (EvSend ws (StatusMsg "completed" "Session finished")).
    repeat split. exact Hpre.
  - destruct Hcase as [Hall | (Hret & _)]; [| discriminate].
    unfold stream_except.
    destruct (is_WebSocketDisconnect e);
      [exists evs; split; [exact Ht | left; exact Hall] |].
    destruct (is_Exception e);
      [| exists evs; split; [exact Ht | left; exact Hall]].
    destruct (await_trace (EvSend ws (StatusMsg "error" (exn_str e))) w1)
      as [[_ Ht'] | [_ Ht']].
    + exists (evs ++ [EvSend ws (StatusMsg "error" (exn_str e))]).
      split; [rewrite Ht', Ht, app_assoc; reflexivity |].
      right. exists evs, (EvSend ws (StatusMsg "error" (exn_str e))).
      repeat split. exact Hall.
    + exists evs. split; [rewrite Ht', Ht; reflexivity | left; exact Hall].
  - destruct Hcase as [Hall | (Hret & _)]; [| discriminate].
    exists evs. split; [exact Ht | left; exact Hall].
Qed.

Lemma try_finally_trace {A : Type} (c : M A) (f : Manager -> Manager) (w : World) :
  trace (snd (try_finally c (modify_manager f) w)) = trace (snd (c w)).
Proof.
  unfold try_finally, modify_manager. destruct (c w) as [[a | e |] w1]; reflexivity.
Qed.

Lemma websocket_audio_stream_unfold (fuel ws : nat) (id : string) (w : World) :
  websocket_audio_stream fuel ws id w
  = match await (EvAccept ws) w with
    | (Ret _, w0) =>
      match sessions (manager w0) !! id with
      | None => await (EvClose ws 4004 "Session not found") w0
      | Some l =>
        try_finally
          (try_except (stream_body fuel ws l) (stream_except ws))
          (modify_manager (SessionManager.end_session id))
          (mkWorld (SessionManager.connect id ws (manager w0)) (trace w0)
                   (clock w0) (awaits w0))
      end
    | (Raise e, w0) => (Raise e, w0)
    | (Stuck, w0) => (Stuck, w0)
    end.
Proof.
  unfold websocket_audio_stream, bind, get_manager, modify_manager,
    SessionManager.get_session.
  destruct (await (EvAccept ws) w) as [[[] | e |] w0]; [| reflexivity ..].
  cbn [manager]. destruct (sessions (manager w0) !! id); reflexivity.
Qed.

(** X23.  However a stream ends, the client receives at most one terminal
    message ("completed" or "error"), and nothing is sent or closed after
    it: if there is one, it is the last event of the connection. *)
Theorem stream_terminal_message_last (fuel ws : nat) (id : string) (w : World) :
  exists evs : list event,
    trace (snd (websocket_audio_stream fuel ws id w)) = trace w ++ evs /\
    (Forall (fun ev => is_status ev = false) evs \/
     exists (pre : list event) (st : event),
       evs = pre ++ [st] /\
       Forall (fun ev => is_status ev = false) pre /\ is_status st = true).
Proof.
  rewrite websocket_audio_stream_unfold.
  destruct (await_trace (EvAccept ws) w) as [[Hr Ht] | [Hr Ht]];
    destruct (await (EvAccept ws) w) as [[[] | e |] w0];
    cbn [fst snd] in Hr, Ht; try congruence;
    try (exists []; split; [rewrite app_nil_r; exact Ht | left; constructor]).
  destruct (sessions (manager w0) !! id) as [l |].
  - rewrite try_finally_trace.
    destruct (stream_try_trace fuel ws l
                (mkWorld (SessionManager.connect id ws (manager w0)) (trace w0)
                         (clock w0) (awaits w0))) as (evs & Hevs & Hcase).
    cbn [trace] in Hevs.
    exists (EvAccept ws :: evs). split.
    + rewrite Hevs, Ht, <- app_assoc. reflexivity.
    + destruct Hcase as [Hall | (pre & st & -> & Hpre & Hst)].
      * left. constructor; [reflexivity | exact Hall].
      * right. exists (EvAccept ws :: pre), st. repeat split; try assumption.
        constructor; [reflexivity | exact Hpre].
  - destruct (await_trace (EvClose ws 4004 "Session not found") w0)
      as [[_ Ht'] | [_ Ht']].
    + exists [EvAccept ws; EvClose ws 4004 "Session not found"].
      split; [rewrite Ht', Ht, <- app_assoc; reflexivity | left; repeat constructor].
    + exists [EvAccept ws].
      split; [rewrite Ht', Ht; reflexivity | left; repeat constructor].
Qed.

End StreamFacts.

(** ** Periodicity and termination by request *)

Section Periodic.
Context `{PyRuntime}.
Local Open Scope R_scope.




Lemma apply_env_inactive (ops : list env_op) :
  forall (m : Manager) (l : positive) (s : SessionData),
    heap m !! l = Some s -> is_active s = false ->
    exists s' : SessionData,
      heap (apply_env ops m) !! l = Some s' /\ is_active s' = false.
Proof.
  unfold apply_env. induction ops as [| op ops IH]; intros m l s Hs Hact; cbn [fold_left].
  - exists s. auto.
  - destruct (apply_op_object op m l s Hs) as (s1 & Hs1 & _ & _ & _ & Hact1).
    apply (IH _ l s1 Hs1). auto.
Qed.

(** X25.  Once a terminate request has ended the session a stream holds,
    whatever else happens afterwards, the next test of the loop leaves it:
    no further buffer is delivered and nothing else changes. *)
Theorem terminated_stream_stops (fuel ws : nat) (l : positive) (start : R)
    (id : string) (ops : list env_op) (w : World) (s : SessionData) :
  sessions (manager w) !! id = Some l -> heap (manager w) !! l = Some s ->
  let w1 := mkWorld (apply_env ops (SessionManager.end_session id (manager w)))
                    (trace w) (clock w) (awaits w) in
  stream_loop (S fuel) ws l start w1 = (Ret tt, w1).
Proof.
  intros Hl Hs w1.
  destruct (end_session_registered id (manager w) l s Hl Hs) as (_ & Hheap & _).
  destruct (apply_env_inactive ops _ l _ Hheap eq_refl) as (s' & Hs' & Hact).
  apply (stream_loop_inactive fuel ws l start w1 s'); [exact Hs' | exact Hact].
Qed.

End Periodic.

(** ** The further properties on the scenario *)

Section ScenarioMore.
Local Open Scope R_scope.
Local Open Scope list_scope.

#[local] Existing Instance example_runtime.

Lemma example_config_valid : valid_config example_config.
Proof.
  unfold valid_config, example_config, supported_waveform. cbn.
  repeat split; try lra; try lia. left. reflexivity.
Qed.

Lemma unsupported_config_waveform : ~ supported_waveform (waveform unsupported_config).
Proof. intros [Hw | [Hw | [Hw | Hw]]]; discriminate. Qed.

Lemma generate_binaural_beats_amplitude_witness :
  exists (b : AudioBuffer) (w' : World),
    BinauralGenerator.generate_binaural_beats example_config example_world = (Ret b, w') /\
    Forall (fun x => - / 2 <= x <= / 2) (left_channel b) /\
    Forall (fun x => - / 2 <= x <= / 2) (right_channel b).
Proof.
  assert (Hrun := generate_binaural_beats_run example_config example_world _ _ 0 []
                    (example_waveform 200) (example_waveform (200 + 10)) eq_refl).
  do 2 eexists. split; [exact Hrun |].
  eapply (generate_binaural_beats_amplitude example_config example_world);
    [cbn; lra | exact Hrun].
Defined.

Lemma generate_binaural_beats_unsupported_witness :
  BinauralGenerator.generate_binaural_beats unsupported_config example_world
  = (Raise (HTTPException 500 "Audio generation failed"), example_world).
Proof.
  apply (generate_binaural_beats_unsupported unsupported_config example_world).
  exact unsupported_config_waveform.
Defined.

Lemma session_immutable_witness :
  exists s' : SessionData,
    heap (apply_env [OpEnd "s"; OpCreate example_config 5 5] (example_manager true))
      !! 1%positive = Some s' /\
    session_id s' = "s"%string /\ config s' = example_config /\
    start_time s' = 0 /\
    (true = false -> is_active s' = false).
Proof.
  apply (session_immutable [OpEnd "s"; OpCreate example_config 5 5]
           (example_manager true) 1%positive (mkSession "s" example_config 0 true)).
  reflexivity.
Defined.

Lemma health_counts_ended_sessions_witness :
  health_check "production" "8000" 0
    (mkWorld (end_all ["s"%string] (manager stream_world)) (trace stream_world)
             (clock stream_world) (awaits stream_world))
  = (Ret (Healthy "healthy" 0 (total_sessions (manager stream_world))
            (websocket_connections (end_all ["s"%string] (manager stream_world)))
            "1.0.0" "production" "8000" (/ 10 - 0)),
     mkWorld (end_all ["s"%string] (manager stream_world)) (trace stream_world)
             [/ 10; / 2; / 2; 2] (awaits stream_world)).
Proof.
  apply (health_counts_ended_sessions "production" "8000" 0 ["s"%string]
           stream_world 0 (/ 10) [/ 10; / 2; / 2; 2]).
  reflexivity.
Defined.

Lemma example_keys (id : string) :
  is_Some (sessions (manager stream_world) !! id) -> In id ["s"%string].
Proof.
  intros [l Hl]. cbn [stream_world manager example_manager sessions] in Hl.
  apply lookup_singleton_Some in Hl as [<- _]. left. reflexivity.
Qed.

Lemma shutdown_ends_all_witness :
  (forall id : string,
     is_Some (sessions (manager stream_world) !! id) ->
     cleaned id (end_all ["s"%string] (manager stream_world))) /\
  active_sessions (end_all ["s"%string] (manager stream_world)) = 0%nat /\
  exists w' : World,
    shutdown_event stream_world = (Ret tt, w') /\
    trace w' = trace stream_world /\
    sessions (manager w') = sessions (manager stream_world) /\
    active_sessions (manager w') = 0%nat.
Proof.
  apply (shutdown_ends_all ["s"%string] stream_world).
  - apply example_manager_wf.
  - exact example_keys.
Defined.

Lemma get_session_info_progress_witness :
  exists p : R,
    get_session_info "s" stream_world
    = (Ret (SessionInfo "s" example_config 0 (0 - 0) true p),
       mkWorld (manager stream_world) (trace stream_world)
               [/ 10; / 10; / 2; / 2; 2] (awaits stream_world)) /\
    p <= 1 /\
    (0 <= 0 -> 0 <= p) /\
    (IZR 1 <= 0 - 0 -> p = 1) /\
    (0 - 0 <= IZR 1 -> p = (0 - 0) / IZR 1).
Proof.
  apply (get_session_info_progress "s" stream_world 1%positive
           (mkSession "s" example_config 0 true) 0 [/ 10; / 10; / 2; / 2; 2]).
  - reflexivity.
  - reflexivity.
  - reflexivity.
  - cbn. lia.
Defined.


Lemma generate_then_query_witness :
  exists (id quality : string) (w1 : World) (p : R),
    generate_beats example_config stream_world
    = (Ret (GenerateResponse id example_config "ready" quality), w1) /\
    (quality = "high"%string <-> carrier_freq example_config < 500) /\
    trace w1 = trace stream_world /\
    get_session_info id w1
    = (Ret (SessionInfo id example_config (/ 10) (/ 2 - / 10) true p),
       mkWorld (manager w1) (trace w1) [/ 2; 2] (awaits w1)).
Proof.
  apply (generate_then_query example_config stream_world 0 (/ 10) (/ 10) (/ 2) [/ 2; 2]).
  - exact example_config_valid.
  - cbn. lra.
  - reflexivity.
Defined.

Lemma presets_accepted_witness :
  valid_config (mkConfig 200 40 "sine" 1800 (/ 2)) /\
  carrier_freq (mkConfig 200 40 "sine" 1800 (/ 2))
  + beat_freq (mkConfig 200 40 "sine" 1800 (/ 2)) <= 1000 /\
  exists (id : string) (w' : World),
    generate_beats (mkConfig 200 40 "sine" 1800 (/ 2)) stream_world
    = (Ret (GenerateResponse id (mkConfig 200 40 "sine" 1800 (/ 2)) "ready" "high"), w') /\
    is_Some (sessions (manager w') !! id).
Proof.
  apply (presets_accepted "focus" (mkConfig 200 40 "sine" 1800 (/ 2)) stream_world
           0 (/ 10) (/ 10) [/ 2; / 2; 2]).
  - left. reflexivity.
  - reflexivity.
Defined.


Lemma stream_buffer_count_witness :
  exists (w' : World) (bufs : list json_msg),
    stream_body 3 7 1 stream_world = (Ret tt, w') /\
    trace w'
    = trace stream_world ++ paced 7 bufs
      ++ [EvSend 7 (StatusMsg "completed" "Session finished")] /\
    INR (length bufs) < IZR 1 * (44100 / 1024) + 1.
Proof.
  assert (Hrun := example_body_run (example_manager true) [] [quiet] eq_refl).
  assert (Hpaced : paced_clock 0 [/ 10; / 10; / 2; / 2; 2]).
  { cbn [paced_clock]. unfold BUFFER_SIZE, SAMPLE_RATE. repeat split; lra. }
  eexists.
  destruct (stream_buffer_count 3 7 1 stream_world _
              (mkSession "s" example_config 0 true) 0 [/ 10; / 10; / 2; / 2; 2]
              Hrun eq_refl ltac:(cbn; lia) eq_refl Hpaced)
    as (bufs & Htr & Hlen).
  exists bufs. split; [exact Hrun |]. split; [exact Htr | exact Hlen].
Defined.


Lemma terminated_stream_stops_witness :
  let w1 := mkWorld (apply_env [OpCreate example_config 5 5]
                       (SessionManager.end_session "s" (manager stream_world)))
                    (trace stream_world) (clock stream_world) (awaits stream_world) in
  stream_loop 1 7 1 0 w1 = (Ret tt, w1).
Proof.
  apply (terminated_stream_stops 0 7 1 0 "s" [OpCreate example_config 5 5]
           stream_world (mkSession "s" example_config 0 true)).
  - reflexivity.
  - reflexivity.
Defined.

End ScenarioMore.
